(** * Monte-Carlo percentile simulation: a shallow embedding of
      [MonteCarloSim.py] and the properties of its specification.

    The Python module draws one-day returns from a Levy stable law,
    compounds them into overlapping n-day returns, takes a low percentile
    of those, and repeats that in three "is the number of trials
    sufficient" procedures.

    Layout:
    - [Number]: the arithmetic of the array elements, with two instances:
      IEEE binary64 ([float], what NumPy computes with) and exact
      rationals ([Q], the arithmetic the specification reasons in);
    - Python/NumPy helpers ([py_slice], [np_prod], [np_percentile], ...);
    - the effect monad [M]: the process-global NumPy generator, the
      things written to stdout and to pyplot, and Python exceptions;
    - [Returns], [simulate_monte_carlo], [check_monte_carlo_trials];
    - the theorems. *)

From Stdlib Require Import ZArith QArith Qround Bool String List Lia.
From Stdlib Require Import Floats.PrimFloat Floats.SpecFloat Floats.FloatOps.
From Stdlib Require Uint63 FloatAxioms.
Import ListNotations.

Local Open Scope Z_scope.

(* ================================================================== *)
(** ** Arithmetic of array elements *)

(** What the program needs from its numbers.  [lit] reads a Python
    numeric literal (or converts an [int]); [floor] is
    [np.floor(x).astype(np.intp)]. *)
Class Number (num : Type) : Type := {
  lit : Q -> num;
  add : num -> num -> num;
  sub : num -> num -> num;
  mul : num -> num -> num;
  div : num -> num -> num;
  ltb : num -> num -> bool;
  leb : num -> num -> bool;
  floor : num -> Z
}.

Definition gtb {num} `{Number num} (a b : num) : bool := ltb b a.
Definition geb {num} `{Number num} (a b : num) : bool := leb b a.
Definition of_int {num} `{Number num} (z : Z) : num := lit (inject_Z z).

(** Exact rational arithmetic: what the specification reasons in, and
    the arithmetic of the replayable fixture.  The program itself
    computes in binary64, the instance [Number_float] below; a fact
    proved at [Q] alone says what holds before rounding and without
    NaN or infinities. *)
#[export] Instance Number_Q : Number Q := {|
  lit := fun q => q;
  add := Qplus;
  sub := Qminus;
  mul := Qmult;
  div := Qdiv;
  ltb := fun a b => negb (Qle_bool b a);
  leb := Qle_bool;
  floor := Qfloor
|}.

(** IEEE 754 binary64, the [float64] of NumPy and the [float] of Python. *)
Module Float64.

Definition of_Z (z : Z) : float :=
  match z with
  | Z0 => PrimFloat.zero
  | Zpos p => PrimFloat.of_uint63 (Uint63.of_Z (Zpos p))
  | Zneg p => PrimFloat.opp (PrimFloat.of_uint63 (Uint63.of_Z (Zpos p)))
  end.

(** A decimal literal [a/b] with [a], [b] below 2^53 is the correctly
    rounded quotient of two exactly represented integers. *)
Definition of_Q (q : Q) : float :=
  match Qden q with
  | xH => of_Z (Qnum q)
  | d => PrimFloat.div (of_Z (Qnum q)) (of_Z (Zpos d))
  end.

(** [np.floor(x).astype(np.intp)]; on a NaN or an infinity the cast
    gives the smallest [intp] on x86-64. *)
Definition floor (x : float) : Z :=
  match Prim2SF x with
  | S754_zero _ => 0
  | S754_finite s m e =>
      let n := if s then Zneg m else Zpos m in
      if 0 <=? e then n * 2 ^ e else n / 2 ^ (- e)
  | S754_infinity _ | S754_nan => - 2 ^ 63
  end.

End Float64.

#[export] Instance Number_float : Number float := {|
  lit := Float64.of_Q;
  add := PrimFloat.add;
  sub := PrimFloat.sub;
  mul := PrimFloat.mul;
  div := PrimFloat.div;
  ltb := PrimFloat.ltb;
  leb := PrimFloat.leb;
  floor := Float64.floor
|}.

(* ================================================================== *)
(** ** Python and NumPy helpers *)

Section Sequences.

Context {A : Type}.

(** [slice(start, stop).indices(len)] for step 1: a negative index
    counts from the end, and the result is clamped to [0, len]. *)
Definition py_clamp (len i : Z) : Z :=
  let j := if i <? 0 then i + len else i in
  Z.max 0 (Z.min len j).

(** [l[start:stop]] *)
Definition py_slice (l : list A) (start stop : Z) : list A :=
  let len := Z.of_nat (length l) in
  let a := py_clamp len start in
  let b := py_clamp len stop in
  firstn (Z.to_nat (b - a)) (skipn (Z.to_nat a) l).

(** [l.append(x)] *)
Definition append (l : list A) (x : A) : list A := l ++ [x].

End Sequences.

(** [range(n)]: empty when [n <= 0]. *)
Definition py_range (n : Z) : list Z :=
  map Z.of_nat (seq 0 (Z.to_nat n)).

(** [np.arange(start, stop, step)] on integers, [step > 0]. *)
Definition np_arange (start stop step : Z) : list Z :=
  map (fun k => start + Z.of_nat k * step)
      (seq 0 (Z.to_nat ((stop - start + step - 1) / step))).

(** Python exceptions the modelled code can meet, and the outcome of a
    call. *)
Inductive exn : Type :=
| ValueError (msg : string)
| IndexError (msg : string).

Inductive result (A : Type) : Type :=
| Ok (a : A)
| Raise (e : exn).

Arguments Ok {A} a.
Arguments Raise {A} e.

Section Numeric.

Context {num : Type} `{Number num}.

Definition zero : num := of_int 0.
Definition one : num := of_int 1.

(** [np.prod(a)]: [multiply.reduce], the empty product is 1 and a
    non-empty one starts from its first element. *)
Definition np_prod (a : list num) : num :=
  match a with
  | [] => one
  | x :: rest => fold_left mul rest x
  end.

(** The body of [Returns.generate_ndays_returns] after the draw:
<<
      returns_1day += 1
      returns_ndays = []
      num_returns_ndays = len(returns_1day) - self.ndays + 1
      for i in range(num_returns_ndays):
          return_ndays = np.prod(returns_1day[i:i+self.ndays])
          returns_ndays.append(return_ndays)
      returns_ndays = np.array(returns_ndays) - 1
>>  *)
Definition compound (ndays : Z) (returns_1day : list num) : list num :=
  let returns_1day := map (fun x => add x one) returns_1day in
  let num_returns_ndays := Z.of_nat (length returns_1day) - ndays + 1 in
  let returns_ndays :=
    fold_left
      (fun returns_ndays i =>
         append returns_ndays (np_prod (py_slice returns_1day i (i + ndays))))
      (py_range num_returns_ndays) [] in
  map (fun x => sub x one) returns_ndays.

(** *** [np.percentile], method "linear" (NumPy >= 1.22) *)

(** [np.isnan]: a NaN is the one value that is not <= itself. *)
Definition is_nan (x : num) : bool := negb (leb x x).

(** NumPy's order of floats for sorting and partitioning: ascending,
    the NaN last. *)
Fixpoint insert_sorted (x : num) (l : list num) : list num :=
  match l with
  | [] => [x]
  | y :: l' =>
      if leb x y || is_nan y then x :: l else y :: insert_sorted x l'
  end.

(** The order statistics of [a] (NumPy partitions in place; only the
    order statistics it reads matter). *)
Definition np_sort (a : list num) : list num :=
  fold_right insert_sorted [] a.

(** [a[i]] for a Python index: negative indices count from the end. *)
Definition py_item (a : list num) (i : Z) : option num :=
  let len := Z.of_nat (length a) in
  let j := if i <? 0 then i + len else i in
  if (0 <=? j) && (j <? len) then nth_error a (Z.to_nat j) else None.

(** [numpy.lib.function_base._lerp] *)
Definition lerp (a b t : num) : num :=
  let diff_b_a := sub b a in
  if geb t (lit (1 # 2))
  then sub b (mul diff_b_a (sub one t))
  else add a (mul diff_b_a t).

(** The quantile at probability [p]: virtual index [(n - 1) * p], the
    two neighbouring order statistics, and their linear interpolation
    ([_quantile], [_get_indexes], [_get_gamma]).  The last element of
    the partitioned array is read first: on an empty array that raises,
    and when it is a NaN (the array holds a NaN) it is the result.  A
    NaN virtual index reads the last element too. *)
Definition np_quantile_unchecked (a : list num) (p : num) : result num :=
  let n := Z.of_nat (length a) in
  let virtual_index := mul (of_int (n - 1)) p in
  let previous := floor virtual_index in
  let next := previous + 1 in
  let above := geb virtual_index (of_int (n - 1)) in
  let below := ltb virtual_index zero in
  let previous := if below then 0 else if above then -1 else previous in
  let next := if below then 0 else if above then -1 else next in
  let previous := if is_nan virtual_index then -1 else previous in
  let next := if is_nan virtual_index then -1 else next in
  let arr := np_sort a in
  match py_item arr (-1) with
  | None =>
      Raise (IndexError "index -1 is out of bounds for axis 0 with size 0")
  | Some last =>
      match py_item arr previous, py_item arr next with
      | Some lo, Some hi =>
          let gamma := sub virtual_index (of_int previous) in
          let result := lerp lo hi gamma in
          if is_nan last then Ok last else Ok result
      | _, _ => Raise (IndexError "index is out of bounds for axis 0")
      end
  end.

(** [np.percentile(a, q)]: [q] is a percentage in [0, 100]. *)
Definition np_percentile (a : list num) (q : num) : result num :=
  let p := div q (of_int 100) in
  if leb zero p && leb p one
  then np_quantile_unchecked a p
  else Raise (ValueError "Percentiles must be in the range [0, 100]").

(** Following the specification's words: the [p]-quantile of a series,
    [p] a probability in [0, 1], under linear interpolation between
    order statistics: with [h = (n - 1) p], the value
    [x_(floor h) + (h - floor h) (x_(floor h + 1) - x_(floor h))] on
    the sorted series [x_0 <= ... <= x_(n-1)]. *)
Definition quantile_linear (series : list num) (p : num) : option num :=
  let x := np_sort series in
  let n := Z.of_nat (length x) in
  let h := mul (of_int (n - 1)) p in
  let i := floor h in
  match nth_error x (Z.to_nat i) with
  | Some lo =>
      let hi := nth (Z.to_nat (i + 1)) x lo in
      if (0 <=? i) && (i <? n)
      then Some (add lo (mul (sub h (of_int i)) (sub hi lo)))
      else None
  | None => None
  end.

End Numeric.

(* ================================================================== *)
(** ** Effects *)

(** What the program writes: lines on stdout and calls into
    [matplotlib.pyplot]. *)
Inductive bins_arg : Type :=
| Bins_rule (name : string)
| Bins_edges (edges : list Z).

Inductive event (num : Type) : Type :=
| Print_statistic (statistic p_value : num) (trials : Z)
| Print_failed
| Plt_figure
| Plt_title (s : string)
| Plt_xlabel (s : string)
| Plt_ylabel (s : string)
| Plt_hist (data : list num) (bins : bins_arg)
| Plt_plot (x : list Z) (y : list num)
| Plt_legend
| Plt_show.

Arguments Print_statistic {num}.
Arguments Print_failed {num}.
Arguments Plt_figure {num}.
Arguments Plt_title {num}.
Arguments Plt_xlabel {num}.
Arguments Plt_ylabel {num}.
Arguments Plt_hist {num}.
Arguments Plt_plot {num}.
Arguments Plt_legend {num}.
Arguments Plt_show {num}.

Definition is_plt {num} (e : event num) : bool :=
  match e with
  | Print_statistic _ _ _ | Print_failed => false
  | _ => true
  end.

(** The state a call runs in: the process-global generator of
    [numpy.random] (type [G]) and the log of what was written so far,
    oldest first. *)
Record world (G num : Type) : Type := World {
  rng : G;
  log : list (event num)
}.

Arguments World {G num}.
Arguments rng {G num}.
Arguments log {G num}.

Section Monad.

Context {G num : Type}.

(** A computation: from a world to an outcome and the world after it.
    [None] is not a Python outcome: it marks a [while] loop cut short
    by the fuel of its model (shown below never to happen). *)
Definition M (A : Type) : Type :=
  world G num -> option (result A * world G num).

Definition ret {A} (a : A) : M A := fun w => Some (Ok a, w).

Definition bind {A B} (m : M A) (k : A -> M B) : M B :=
  fun w =>
    match m w with
    | Some (Ok a, w') => k a w'
    | Some (Raise e, w') => Some (Raise e, w')
    | None => None
    end.

Definition emit (e : event num) : M unit :=
  fun w => Some (Ok tt, World (rng w) (append (log w) e)).

(** A call that only uses the generator. *)
Definition with_rng {A} (f : G -> result A * G) : M A :=
  fun w => let (r, g) := f (rng w) in Some (r, World g (log w)).

Definition of_result {A} (r : result A) : M A := fun w => Some (r, w).

Definition out_of_fuel {A} : M A := fun _ => None.

End Monad.

Declare Scope monad_scope.
Delimit Scope monad_scope with monad.
Notation "x <- m ;; k" := (bind m (fun x => k))
  (at level 61, m at next level, right associativity) : monad_scope.
Notation "m ;; k" := (bind m (fun _ => k))
  (at level 61, right associativity) : monad_scope.

Section Loops.

Context {G num : Type}.
Local Open Scope monad_scope.

(** [for x in l: s = body(x, s)] *)
Fixpoint for_each {A S} (l : list A)
  (body : A -> S -> M (G:=G) (num:=num) S) (s : S)
  : M S :=
  match l with
  | [] => ret s
  | x :: l' => s' <- body x s ;; for_each l' body s'
  end.

Inductive control : Type := Continue | Break.

(** How a [while] loop was left: its condition became false, or its
    body executed [break]. *)
Inductive exit : Type := Condition_false | By_break.

(** [while cond(s): s = body(s)], the body saying whether it ended in
    [break]. *)
Fixpoint while_loop {S} (fuel : nat) (cond : S -> bool)
    (body : S -> M (G:=G) (num:=num) (control * S)) (s : S) : M (exit * S) :=
  if cond s then
    match fuel with
    | O => out_of_fuel
    | Datatypes.S fuel' =>
        cs <- body s ;;
        match fst cs with
        | Break => ret (By_break, snd cs)
        | Continue => while_loop fuel' cond body (snd cs)
        end
    end
  else ret (Condition_false, s).

End Loops.

(* ================================================================== *)
(** ** The program *)

(** What [check_monte_carlo_trials] hands back: a pair [(list, int)]
    (methods 'CLT' and 'test_statistic'), a pair [(list, list)] (method
    'monitoring'), or [None]. *)
Inductive pyvalue (num : Type) : Type :=
| PyNone
| Pair_list_int (xs : list num) (n : Z)
| Pair_list_list (xs : list num) (ns : list Z).

Arguments PyNone {num}.
Arguments Pair_list_int {num}.
Arguments Pair_list_list {num}.

Section Program.

Context {num : Type} `{Number num} {G : Type}.

(** The library calls whose code is outside the repository:
    [scipy.stats.levy_stable.rvs] (given the four parameters and
    [size]), which draws from the global generator,
    [scipy.stats.ks_2samp], and the two NumPy reductions. *)
Variable rvs : list num -> Z -> G -> result (list num) * G.
Variable ks_2samp : list num -> list num -> num * num.
Variable np_mean : list num -> num.
Variable np_std : list num -> num.

Local Notation "'M'" := (M (G:=G) (num:=num)).
Local Open Scope monad_scope.

(** *** class [Returns] *)

Record Returns : Type := {
  num_observations : Z;
  ndays : Z;
  parameters : list num
}.

Definition default_levy_parameters : list num :=
  [lit (17 # 10); lit 0; lit 1; lit 1].

(** [Returns.__init__] *)
Definition Returns_init (num_observations ndays : Z)
    (levy_parameters : list num) : Returns :=
  {| num_observations := num_observations;
     ndays := ndays;
     parameters := levy_parameters |}.

Definition generate_1day_returns (self : Returns) : M (list num) :=
  with_rng (rvs (parameters self) (num_observations self)).

Definition generate_ndays_returns (self : Returns) : M (list num) :=
  returns_1day <- generate_1day_returns self ;;
  ret (compound (ndays self) returns_1day).

Definition default_q_value : num := lit (1 # 100).

Definition get_percentile (self : Returns) (q_value : num) : M num :=
  returns_ndays <- generate_ndays_returns self ;;
  of_result (np_percentile returns_ndays q_value).

(** *** [visualize_distribution] *)
Definition visualize_distribution (data : list num) (bins : bins_arg)
    (title : string) : M unit :=
  emit Plt_figure ;;
  emit (Plt_title title) ;;
  emit (Plt_xlabel "Values") ;;
  emit (Plt_ylabel "Counts") ;;
  emit (Plt_hist data bins) ;;
  emit Plt_show.

(** *** [simulate_monte_carlo] *)
Definition simulate_monte_carlo (num_observations ndays trials : Z)
  : M (list num) :=
  let returns := Returns_init num_observations ndays default_levy_parameters in
  for_each (py_range trials)
    (fun _ percentiles =>
       x <- get_percentile returns default_q_value ;;
       ret (append percentiles x))
    [].

(** *** [check_monte_carlo_trials] *)

(** Method 'CLT'. *)
Definition clt_MAX_TRIALS : Z := 15000.
Definition clt_MAX_SAMPLES : Z := 100.

Record clt_state : Type := {
  clt_std : list num;
  clt_mean : list num;
  clt_samples : Z
}.

Definition clt_body (returns : Returns) (s : clt_state)
  : M (control * clt_state) :=
  let samples := clt_samples s + 1 in
  percentile <-
    for_each (py_range clt_MAX_TRIALS)
      (fun _ percentile =>
         x <- get_percentile returns default_q_value ;;
         ret (append percentile x))
      [] ;;
  ret (Continue,
       {| clt_std := append (clt_std s) (np_std percentile);
          clt_mean := append (clt_mean s) (np_mean percentile);
          clt_samples := samples |}).

Definition check_clt (returns : Returns) : M (pyvalue num) :=
  r <- while_loop (Z.to_nat clt_MAX_SAMPLES)
         (fun s => clt_samples s <? clt_MAX_SAMPLES)
         (clt_body returns)
         {| clt_std := []; clt_mean := []; clt_samples := 0 |} ;;
  let mean := clt_mean (snd r) in
  let bins := np_arange (-400000) (-200000) 5000 in
  emit (Plt_hist mean (Bins_edges bins)) ;;
  emit (Plt_title "Distribution of percentile means") ;;
  emit (Plt_xlabel "Values") ;;
  emit (Plt_ylabel "Count") ;;
  emit Plt_show ;;
  ret (Pair_list_int mean clt_MAX_TRIALS).

(** Method 'monitoring'. *)
Definition monitoring_MAX_TRIALS : Z := 30000.

Record monitoring_state : Type := {
  mon_mean_perc : list num;
  mon_percentiles : list num;
  mon_trial : Z;
  mon_trials : list Z
}.

Definition monitoring_body (returns : Returns) (s : monitoring_state)
  : M (control * monitoring_state) :=
  let trial := mon_trial s + 1 in
  x <- get_percentile returns default_q_value ;;
  let percentiles := append (mon_percentiles s) x in
  ret (Continue,
       {| mon_mean_perc := append (mon_mean_perc s) (np_mean percentiles);
          mon_percentiles := percentiles;
          mon_trial := trial;
          mon_trials := append (mon_trials s) trial |}).

Definition check_monitoring (returns : Returns) : M (pyvalue num) :=
  r <- while_loop (Z.to_nat monitoring_MAX_TRIALS)
         (fun s => mon_trial s <? monitoring_MAX_TRIALS)
         (monitoring_body returns)
         {| mon_mean_perc := []; mon_percentiles := [];
            mon_trial := 0; mon_trials := [] |} ;;
  let mean_perc := mon_mean_perc (snd r) in
  let trials := mon_trials (snd r) in
  emit (Plt_plot trials mean_perc) ;;
  emit (Plt_title "Value of percentiles mean ") ;;
  emit (Plt_xlabel "Trials") ;;
  emit (Plt_ylabel "Means") ;;
  emit Plt_legend ;;
  emit Plt_show ;;
  ret (Pair_list_list mean_perc trials).

(** Method 'test_statistic'. *)
Record ts_state : Type := {
  ts_trials : Z;
  ts_p_value : num;
  ts_statistic : num;
  ts_p_list1 : list num;
  ts_p_list2 : list num
}.

Definition ts_initial : ts_state :=
  {| ts_trials := 0;
     ts_p_value := of_int 0;
     ts_statistic := lit (1000000000 # 1);
     ts_p_list1 := [];
     ts_p_list2 := [] |}.

(** [(statistic > discrepancy) or (p_value < significance_level)] *)
Definition ts_cond (significance_level discrepancy : num) (s : ts_state)
  : bool :=
  gtb (ts_statistic s) discrepancy || ltb (ts_p_value s) significance_level.

Definition ts_body (returns : Returns) (s : ts_state)
  : M (control * ts_state) :=
  let trials := ts_trials s + 1 in
  x1 <- get_percentile returns default_q_value ;;
  let p_list1 := append (ts_p_list1 s) x1 in
  x2 <- get_percentile returns default_q_value ;;
  let p_list2 := append (ts_p_list2 s) x2 in
  sp <- (if trials mod 100 =? 0
         then
           let sp := ks_2samp p_list1 p_list2 in
           emit (Print_statistic (fst sp) (snd sp) trials) ;;
           ret sp
         else ret (ts_statistic s, ts_p_value s)) ;;
  let s' := {| ts_trials := trials;
               ts_p_value := snd sp;
               ts_statistic := fst sp;
               ts_p_list1 := p_list1;
               ts_p_list2 := p_list2 |} in
  if trials >? 200000
  then emit Print_failed ;; ret (Break, s')
  else ret (Continue, s').

(** The loop of the method, with the way it was left. *)
Definition ts_loop (returns : Returns) (significance_level discrepancy : num)
  : M (exit * ts_state) :=
  while_loop (Z.to_nat 200001)
    (ts_cond significance_level discrepancy)
    (ts_body returns)
    ts_initial.

Definition check_test_statistic (returns : Returns)
    (significance_level discrepancy : num) : M (pyvalue num) :=
  r <- ts_loop returns significance_level discrepancy ;;
  let percentiles := ts_p_list1 (snd r) ++ ts_p_list2 (snd r) in
  ret (Pair_list_int percentiles (ts_trials (snd r))).

Definition default_significance_level : num := lit (6 # 10).
Definition default_discrepancy : num := lit (1 # 100).

Definition check_monte_carlo_trials (method : string)
    (num_observations ndays : Z) (significance_level discrepancy : num)
  : M (pyvalue num) :=
  let returns := Returns_init num_observations ndays default_levy_parameters in
  if String.eqb method "CLT" then check_clt returns
  else if String.eqb method "monitoring" then check_monitoring returns
  else if String.eqb method "test_statistic"
       then check_test_statistic returns significance_level discrepancy
  else ret PyNone.

End Program.

(* ================================================================== *)
(** ** Assertions about runs *)

Definition is_print {num} (e : event num) : bool := negb (is_plt e).

Section Assertions.

Context {num : Type} `{Number num} {G : Type}.
Variable rvs : list num -> Z -> G -> result (list num) * G.
Variable returns : Returns (num:=num).
Variables significance_level discrepancy : num.

(** The log at [w'] is the log at [w] followed by events that all
    satisfy [P]. *)
Definition log_grows (P : event num -> bool) (w w' : world G num) : Prop :=
  exists new, log w' = log w ++ new /\ forallb P new = true.

(** The test-statistic loop: what holds each time its condition is
    evaluated, in a run started in the world [w0]. *)
Definition ts_inv (w0 : world G num) (s : @ts_state num) (w : world G num)
  : Prop :=
  0 <= ts_trials s <= 200000
  /\ Z.of_nat (length (ts_p_list1 s)) = ts_trials s
  /\ Z.of_nat (length (ts_p_list2 s)) = ts_trials s
  /\ log_grows is_print w0 w.

(** What holds when that loop is left. *)
Definition ts_post (w0 : world G num) (e : exit) (s : @ts_state num)
    (w : world G num) : Prop :=
  Z.of_nat (length (ts_p_list1 s)) = ts_trials s
  /\ Z.of_nat (length (ts_p_list2 s)) = ts_trials s
  /\ log_grows is_print w0 w
  /\ match e with
     | Condition_false =>
         ts_cond significance_level discrepancy s = false
         /\ 0 <= ts_trials s <= 200000
     | By_break =>
         ts_cond significance_level discrepancy s = true
         /\ ts_trials s = 200001
         /\ exists l, log w = l ++ [Print_failed]
     end.

(** An exception of that loop is the exception of one of its draws;
    only lines were printed before it. *)
Definition ts_raised (w0 : world G num) (e : exn) (w : world G num)
  : Prop :=
  log_grows is_print w0 w
  /\ exists w1, get_percentile rvs returns default_q_value w1
                = Some (Raise e, w).

(** An exception of the other loops is the exception of one of their
    draws, and nothing was written before it. *)
Definition draw_raised (w0 : world G num) (e : exn) (w : world G num)
  : Prop :=
  log w = log w0
  /\ exists w1, get_percentile rvs returns default_q_value w1
                = Some (Raise e, w).

Definition clt_inv (w0 : world G num) (s : @clt_state num)
    (w : world G num) : Prop :=
  0 <= clt_samples s <= clt_MAX_SAMPLES
  /\ Z.of_nat (length (clt_mean s)) = clt_samples s
  /\ log w = log w0.

Definition monitoring_inv (w0 : world G num) (s : @monitoring_state num)
    (w : world G num) : Prop :=
  0 <= mon_trial s <= monitoring_MAX_TRIALS
  /\ Z.of_nat (length (mon_mean_perc s)) = mon_trial s
  /\ Z.of_nat (length (mon_trials s)) = mon_trial s
  /\ log w = log w0.

(** The events of the figure drawn by the 'CLT' method. *)
Definition clt_figure (mean : list num) : list (event num) :=
  [Plt_hist mean (Bins_edges (np_arange (-400000) (-200000) 5000));
   Plt_title "Distribution of percentile means";
   Plt_xlabel "Values";
   Plt_ylabel "Count";
   Plt_show].

(** The events of the figure drawn by the 'monitoring' method. *)
Definition monitoring_figure (trials : list Z) (mean_perc : list num)
  : list (event num) :=
  [Plt_plot trials mean_perc;
   Plt_title "Value of percentiles mean ";
   Plt_xlabel "Trials";
   Plt_ylabel "Means";
   Plt_legend;
   Plt_show].

End Assertions.

(* ================================================================== *)
(** ** The statements at module level *)

(** How the script ends: it runs to its end, an exception of a call
    escapes, or the unpacking of the pair fails on [None]. *)
Inductive script_outcome : Type :=
| Finished
| Uncaught (e : exn)
| Unpack_TypeError.

Section Script.

Context {num : Type} `{Number num} {G : Type}.
Variable rvs : list num -> Z -> G -> result (list num) * G.
Variable ks_2samp : list num -> list num -> num * num.
Variable np_mean : list num -> num.
Variable np_std : list num -> num.

(** The last two lines of the module:
<<
    percentiles, trials = check_monte_carlo_trials('test_statistic', 750, 10)
    visualize_distribution(percentiles)
>>  *)
Definition main (w : world G num) : option (script_outcome * world G num) :=
  match check_monte_carlo_trials rvs ks_2samp np_mean np_std
          "test_statistic" 750 10
          default_significance_level default_discrepancy w with
  | None => None
  | Some (Raise e, w1) => Some (Uncaught e, w1)
  | Some (Ok PyNone, w1) => Some (Unpack_TypeError, w1)
  | Some (Ok (Pair_list_int percentiles _), w1)
  | Some (Ok (Pair_list_list percentiles _), w1) =>
      match visualize_distribution percentiles (Bins_rule "fd")
              "Percentile distribution" w1 with
      | None => None
      | Some (Raise e, w2) => Some (Uncaught e, w2)
      | Some (Ok _, w2) => Some (Finished, w2)
      end
  end.

End Script.

(* ================================================================== *)
(** ** More vocabulary for runs *)

(** The two samples of the test-statistic procedure, taken in the
    order of their draws. *)
Fixpoint interleave {A : Type} (l1 l2 : list A) : list A :=
  match l1, l2 with
  | x :: l1', y :: l2' => x :: y :: interleave l1' l2'
  | _, _ => []
  end.

(** The trial count printed on a progress line. *)
Definition statistic_line_trials {num : Type} (e : event num) : option Z :=
  match e with
  | Print_statistic _ _ trials => Some trials
  | _ => None
  end.

(** The trial counts of the first [n] progress lines: 100, 200, ... *)
Definition hundreds (n : nat) : list (option Z) :=
  map (fun k => Some (100 * Z.of_nat k)) (seq 1 n).

(** The events of the figure drawn by [visualize_distribution]. *)
Definition distribution_figure {num : Type} (data : list num)
    (bins : bins_arg) (title : string) : list (event num) :=
  [Plt_figure;
   Plt_title title;
   Plt_xlabel "Values";
   Plt_ylabel "Counts";
   Plt_hist data bins;
   Plt_show].

(* ================================================================== *)
(** ** A fixture: concrete library stand-ins *)

(** Exact rationals for the numbers, and a replayable generator whose
    state is the index of the next draw, draw number [k] being [100 k].
    Two stand-ins for the two-sample test: one that always reports
    agreement (statistic 0, p-value 1) and one that always reports
    disagreement (statistic 1, p-value 0). *)
Module Fixture.

Definition rvs (parameters : list Q) (size : Z) (g : Z)
  : result (list Q) * Z :=
  if size <? 0
  then (Raise (ValueError "negative dimensions are not allowed"), g)
  else (Ok (map (fun k => inject_Z (100 * (g + k))) (py_range size)),
        g + size).

Definition ks_agree (a b : list Q) : Q * Q := (0 # 1, 1 # 1)%Q.
Definition ks_differ (a b : list Q) : Q * Q := (1 # 1, 0 # 1)%Q.

Definition np_mean (a : list Q) : Q :=
  Qred (fold_left Qplus a (0 # 1) / inject_Z (Z.of_nat (length a)))%Q.

Definition np_std (a : list Q) : Q := (0 # 1)%Q.

Definition w0 : world Z Q := World 0 [].

(** One observation and a window of one day. *)
Definition one_day : Returns :=
  Returns_init 1 1 (default_levy_parameters (num:=Q)).

End Fixture.

(** The same stand-ins in binary64, with a two-sample test that
    reports agreement and one whose result is NaN (what [ks_2samp]
    gives on samples it cannot compare). *)
Module FloatFixture.

Definition rvs (parameters : list float) (size : Z) (g : Z)
  : result (list float) * Z :=
  if size <? 0
  then (Raise (ValueError "negative dimensions are not allowed"), g)
  else (Ok (map (fun k => Float64.of_Z (100 * (g + k))) (py_range size)),
        g + size).

Definition ks_agree (a b : list float) : float * float :=
  (PrimFloat.zero, PrimFloat.one).
Definition ks_nan (a b : list float) : float * float :=
  (PrimFloat.nan, PrimFloat.nan).

Definition w0 : world Z float := World 0 [].

Definition one_day : Returns :=
  Returns_init 1 1 (default_levy_parameters (num:=float)).

End FloatFixture.

(* ================================================================== *)
(** ** Sequences *)

Section SequenceFacts.

Context {A B : Type}.

Lemma fold_left_append (f : B -> A) (l : list B) (init : list A) :
  fold_left (fun acc i => append acc (f i)) l init = init ++ map f l.
Proof.
  revert init; induction l as [|i l IH]; intros init; simpl.
  - now rewrite app_nil_r.
  - rewrite IH. unfold append. now rewrite <- app_assoc.
Qed.

Lemma length_append (l : list A) (x : A) :
  length (append l x) = S (length l).
Proof. unfold append. rewrite length_app. simpl. lia. Qed.

Lemma firstn_1_skipn (l : list A) (i : nat) (d : A) :
  (i < length l)%nat -> firstn 1 (skipn i l) = [nth i l d].
Proof.
  revert i; induction l as [|x l IH]; intros [|i] Hi; simpl in *;
    try lia; auto.
  apply IH. lia.
Qed.

(** A window of width one is the element under it. *)
Lemma py_slice_one (l : list A) (i : nat) (d : A) :
  (i < length l)%nat ->
  py_slice l (Z.of_nat i) (Z.of_nat i + 1) = [nth i l d].
Proof.
  intros Hi. unfold py_slice, py_clamp.
  destruct (Z.of_nat i <? 0) eqn:E1; [apply Z.ltb_lt in E1; lia|].
  destruct (Z.of_nat i + 1 <? 0) eqn:E2; [apply Z.ltb_lt in E2; lia|].
  replace (Z.max 0 (Z.min (Z.of_nat (length l)) (Z.of_nat i)))
    with (Z.of_nat i) by lia.
  replace (Z.max 0 (Z.min (Z.of_nat (length l)) (Z.of_nat i + 1)))
    with (Z.of_nat i + 1) by lia.
  replace (Z.to_nat (Z.of_nat i + 1 - Z.of_nat i)) with 1%nat by lia.
  rewrite Nat2Z.id. now apply firstn_1_skipn.
Qed.

Lemma map_nth_seq (g : A -> B) (l : list A) (d : A) :
  map (fun i => g (nth i l d)) (seq 0 (length l)) = map g l.
Proof.
  induction l as [|x l IH]; simpl; auto.
  f_equal. rewrite <- seq_shift, map_map. exact IH.
Qed.

End SequenceFacts.

Lemma length_py_range (n : Z) : length (py_range n) = Z.to_nat n.
Proof. unfold py_range. now rewrite length_map, length_seq. Qed.

Lemma py_range_nonpos (n : Z) : n <= 0 -> py_range n = [].
Proof.
  intros Hn. unfold py_range. replace (Z.to_nat n) with 0%nat by lia.
  reflexivity.
Qed.

(* ================================================================== *)
(** ** Compounding *)

Section CompoundFacts.

Context {num : Type} `{Number num}.

(** The loop of [generate_ndays_returns] as a comprehension. *)
Lemma compound_eq (ndays : Z) (returns_1day : list num) :
  compound ndays returns_1day =
  map (fun i =>
         sub (np_prod (py_slice (map (fun x => add x one) returns_1day)
                                i (i + ndays)))
             one)
      (py_range (Z.of_nat (length returns_1day) - ndays + 1)).
Proof.
  unfold compound. rewrite fold_left_append. simpl.
  now rewrite length_map, map_map.
Qed.

Lemma compound_length (ndays : Z) (returns_1day : list num) :
  Z.of_nat (length (compound ndays returns_1day)) =
  Z.max 0 (Z.of_nat (length returns_1day) - ndays + 1).
Proof. rewrite compound_eq, length_map, length_py_range. lia. Qed.

Lemma compound_empty (ndays : Z) (returns_1day : list num) :
  Z.of_nat (length returns_1day) < ndays ->
  compound ndays returns_1day = [].
Proof.
  intros Hlt. rewrite compound_eq, py_range_nonpos by lia. reflexivity.
Qed.

(** A window of one day: each element [x] becomes [(x + 1) - 1]. *)
Lemma compound_window_one (returns_1day : list num) :
  compound 1 returns_1day =
  map (fun x => sub (add x one) one) returns_1day.
Proof.
  rewrite compound_eq.
  replace (Z.of_nat (length returns_1day) - 1 + 1)
    with (Z.of_nat (length returns_1day)) by lia.
  unfold py_range. rewrite Nat2Z.id, map_map.
  set (xs := map (fun x => add x one) returns_1day).
  assert (Hlen : length returns_1day = length xs)
    by (unfold xs; now rewrite length_map).
  rewrite Hlen.
  transitivity (map (fun x => sub x one) xs).
  - rewrite <- (map_nth_seq (fun x => sub x one) xs one).
    apply map_ext_in. intros i Hi. apply in_seq in Hi.
    rewrite (py_slice_one xs i one) by lia. reflexivity.
  - unfold xs. now rewrite map_map.
Qed.

(** C7 (as amended).  With a window of one day the compounding step
    keeps the length of the series and turns each element [x] into
    [(x + 1) - 1], evaluated in the arithmetic of the array. *)
Theorem compound_one (returns_1day : list num) :
  length (compound 1 returns_1day) = length returns_1day
  /\ compound 1 returns_1day =
     map (fun x => sub (add x one) one) returns_1day.
Proof.
  split; [|apply compound_window_one].
  now rewrite compound_window_one, length_map.
Qed.

End CompoundFacts.

(** In exact arithmetic [(x + 1) - 1] is [x]: the window of one day
    gives the series back, element by element. *)
Lemma compound_one_exact (returns_1day : list Q) :
  Forall2 Qeq (compound 1 returns_1day) returns_1day.
Proof.
  rewrite compound_window_one.
  induction returns_1day as [|x l IH]; simpl; constructor; auto.
  unfold one, of_int; simpl. ring.
Qed.

(** C7, the claim as written, fails in binary64: the one-day return
    0.1 comes back from a window of one day as 0.10000000000000009. *)
Lemma compound_one_not_identity_float :
  let series : list float := [lit (1 # 10)] in
  exists y : float,
    compound 1 series = [y]
    /\ PrimFloat.eqb y (lit (1 # 10)) = false
    /\ PrimFloat.ltb (lit (1 # 10)) y = true
    /\ compound 1 series <> series.
Proof.
  eexists. split; [vm_compute; reflexivity|].
  split; [vm_compute; reflexivity|].
  split; [vm_compute; reflexivity|].
  intros Heq. vm_compute in Heq. discriminate Heq.
Qed.

(* ================================================================== *)
(** ** Reasoning about computations *)

Section MonadFacts.

Context {G num : Type}.
Local Notation "'M'" := (M (G:=G) (num:=num)).
Local Open Scope monad_scope.

(** Every way [x <- m ;; k x] can end. *)
Lemma bind_inv {A B} (m : M A) (k : A -> M B) w r w' :
  bind m k w = Some (r, w') ->
  (exists a w1, m w = Some (Ok a, w1) /\ k a w1 = Some (r, w'))
  \/ (exists e, m w = Some (Raise e, w') /\ r = Raise e).
Proof.
  unfold bind. destruct (m w) as [[[a|e] w1]|]; intros Hk.
  - left. eauto.
  - right. inversion Hk; subst. eauto.
  - discriminate.
Qed.

Lemma bind_ok {A B} (m : M A) (k : A -> M B) w a w1 :
  m w = Some (Ok a, w1) -> bind m k w = k a w1.
Proof. intros Hm. unfold bind. now rewrite Hm. Qed.

Lemma bind_raise {A B} (m : M A) (k : A -> M B) w e w1 :
  m w = Some (Raise e, w1) -> bind m k w = Some (Raise e, w1).
Proof. intros Hm. unfold bind. now rewrite Hm. Qed.

Lemma bind_returns {A B} (m : M A) (k : A -> M B) w :
  m w <> None -> (forall a w1, k a w1 <> None) -> bind m k w <> None.
Proof.
  intros Hm Hk. unfold bind.
  destruct (m w) as [[[a|e] w1]|]; auto; discriminate.
Qed.

Lemma log_grows_refl P (w : world G num) : log_grows P w w.
Proof. exists []. now rewrite app_nil_r. Qed.

Lemma log_grows_same P (w w' : world G num) :
  log w' = log w -> log_grows P w w'.
Proof. intros E. exists []. now rewrite app_nil_r. Qed.

Lemma log_grows_trans P (w1 w2 w3 : world G num) :
  log_grows P w1 w2 -> log_grows P w2 w3 -> log_grows P w1 w3.
Proof.
  intros [n1 [E1 F1]] [n2 [E2 F2]]. exists (n1 ++ n2). split.
  - now rewrite E2, E1, app_assoc.
  - now rewrite forallb_app, F1, F2.
Qed.

Lemma log_grows_emit P (w : world G num) e :
  P e = true -> log_grows P w (World (rng w) (append (log w) e)).
Proof. intros HP. exists [e]. simpl. now rewrite HP. Qed.

(** *** Loops *)

Section ForEach.

Context {A S : Type} (body : A -> S -> M S).
Variable I : S -> world G num -> Prop.
Variable E : exn -> world G num -> Prop.

Hypothesis body_step : forall x s w r w',
  I s w -> body x s w = Some (r, w') ->
  match r with Ok s' => I s' w' | Raise e => E e w' end.

Lemma for_each_rule (l : list A) : forall s w r w',
  I s w -> for_each l body s w = Some (r, w') ->
  match r with Ok s' => I s' w' | Raise e => E e w' end.
Proof.
  induction l as [|x l IH]; intros s w r w' HI Hrun; simpl in Hrun.
  - inversion Hrun; subst. exact HI.
  - apply bind_inv in Hrun as [(s1 & w1 & Hb & Hk)|(e & Hb & ->)].
    + apply (IH s1 w1); auto. exact (body_step _ _ _ _ _ HI Hb).
    + exact (body_step _ _ _ _ _ HI Hb).
Qed.

Hypothesis body_returns : forall x s w, body x s w <> None.

Lemma for_each_returns (l : list A) : forall s w,
  for_each l body s w <> None.
Proof.
  induction l as [|x l IH]; intros s w; simpl; [discriminate|].
  unfold bind. specialize (body_returns x s w).
  destruct (body x s w) as [[[s1|e] w1]|]; try discriminate; auto.
Qed.

End ForEach.

Section While.

Context {S : Type} (cond : S -> bool) (body : S -> M (control * S)).
Variable I : S -> world G num -> Prop.
Variable Q : exit -> S -> world G num -> Prop.
Variable E : exn -> world G num -> Prop.

Hypothesis at_exit : forall s w,
  I s w -> cond s = false -> Q Condition_false s w.

Hypothesis body_step : forall s w r w',
  I s w -> cond s = true -> body s w = Some (r, w') ->
  match r with
  | Ok (Continue, s') => I s' w'
  | Ok (Break, s') => Q By_break s' w'
  | Raise e => E e w'
  end.

(** Partial correctness of [while]: an invariant kept by the body
    holds, with the negated condition or at the [break], when the
    loop is left. *)
Lemma while_loop_rule (fuel : nat) : forall s w r w',
  I s w -> while_loop fuel cond body s w = Some (r, w') ->
  match r with Ok (e, s') => Q e s' w' | Raise e => E e w' end.
Proof.
  induction fuel as [|fuel IH]; intros s w r w' HI Hrun; simpl in Hrun;
    destruct (cond s) eqn:Hc;
    try (inversion Hrun; subst; now apply at_exit);
    try discriminate.
  apply bind_inv in Hrun as [([c s1] & w1 & Hb & Hk)|(e & Hb & ->)].
  - pose proof (body_step _ _ _ _ HI Hc Hb) as Hs. simpl in Hk.
    destruct c.
    + now apply (IH s1 w1).
    + inversion Hk; subst. exact Hs.
  - exact (body_step _ _ _ _ HI Hc Hb).
Qed.

(** Termination of [while]: with a measure that the body decreases
    the fuel is never used up. *)
Variable measure : S -> nat.

Hypothesis body_returns : forall s w,
  I s w -> cond s = true -> body s w <> None.

Hypothesis measure_pos : forall s w,
  I s w -> cond s = true -> (0 < measure s)%nat.

Hypothesis body_decreases : forall s w s' w',
  I s w -> cond s = true -> body s w = Some (Ok (Continue, s'), w') ->
  (measure s' < measure s)%nat.

Lemma while_loop_returns (fuel : nat) : forall s w,
  I s w -> (measure s <= fuel)%nat ->
  while_loop fuel cond body s w <> None.
Proof.
  induction fuel as [|fuel IH]; intros s w HI Hm; simpl;
    destruct (cond s) eqn:Hc; try discriminate.
  - pose proof (measure_pos _ _ HI Hc). lia.
  - unfold bind. pose proof (body_returns _ _ HI Hc) as Hr.
    pose proof (body_decreases s w) as Hd.
    pose proof (body_step s w) as Hs.
    destruct (body s w) as [[[[[|] s1]|e] w1]|]; try discriminate;
      try contradiction.
    simpl. apply IH.
    + exact (Hs _ _ HI Hc eq_refl).
    + specialize (Hd s1 w1 HI Hc eq_refl). lia.
Qed.

End While.

End MonadFacts.

(* ================================================================== *)
(** ** The class [Returns] *)

Section ReturnsFacts.

Context {num : Type} `{Number num} {G : Type}.
Variable rvs : list num -> Z -> G -> result (list num) * G.

Local Notation "'M'" := (M (G:=G) (num:=num)).
Local Open Scope monad_scope.

(** One call of [get_percentile], spelled out: draw, compound, take
    the percentile.  Only the generator changes. *)
Lemma get_percentile_run (self : Returns) (q_value : num) w :
  get_percentile rvs self q_value w =
  let drawn := rvs (parameters self) (num_observations self) (rng w) in
  Some (match fst drawn with
        | Ok returns_1day =>
            np_percentile (compound (ndays self) returns_1day) q_value
        | Raise e => Raise e
        end,
        World (snd drawn) (log w)).
Proof.
  unfold get_percentile, generate_ndays_returns, generate_1day_returns,
    bind, with_rng, ret, of_result.
  destruct (rvs (parameters self) (num_observations self) (rng w))
    as [[xs|e] g]; reflexivity.
Qed.

Lemma get_percentile_returns self q_value w :
  get_percentile rvs self q_value w <> None.
Proof. rewrite get_percentile_run. discriminate. Qed.

Lemma get_percentile_log self q_value w r w' :
  get_percentile rvs self q_value w = Some (r, w') -> log w' = log w.
Proof.
  rewrite get_percentile_run. intros Hrun. inversion Hrun. reflexivity.
Qed.

(** C6.  For a window [ndays >= 1] and a drawn one-day series of
    length [L], [generate_ndays_returns] returns (it raises nothing) a
    series of length [max(0, L - ndays + 1)]; when [ndays > L] that
    series is empty. *)
Theorem generate_ndays_returns_length (self : Returns) w returns_1day g' :
  1 <= ndays self ->
  rvs (parameters self) (num_observations self) (rng w)
    = (Ok returns_1day, g') ->
  exists returns_ndays,
    generate_ndays_returns rvs self w
      = Some (Ok returns_ndays, World g' (log w))
    /\ returns_ndays = compound (ndays self) returns_1day
    /\ Z.of_nat (length returns_ndays)
       = Z.max 0 (Z.of_nat (length returns_1day) - ndays self + 1)
    /\ (ndays self > Z.of_nat (length returns_1day) -> returns_ndays = []).
Proof.
  intros _ Hdraw. exists (compound (ndays self) returns_1day).
  split; [|split; [reflexivity|split]].
  - unfold generate_ndays_returns, generate_1day_returns, bind, with_rng, ret.
    now rewrite Hdraw.
  - apply compound_length.
  - intros Hgt. apply compound_empty. lia.
Qed.

(** C5 (as amended).  [get_percentile] takes no random stream: each
    call makes one draw, [levy_stable.rvs] with the object's
    parameters and [num_observations], from the process-global
    generator in the state it is in.  The call returns the percentile
    of that draw compounded over [ndays] (or passes on the exception
    of the draw or of the percentile), leaves the global generator in
    the state the draw left it in, and writes nothing.  Hence two
    calls started from equal generator states return the same outcome
    and leave the same generator state; and of two calls made one
    after the other the second draws from the state the first one
    left, not from the state the first one started in. *)
Theorem get_percentile_draws_from_the_global_generator
    (self : Returns) (q_value : num) w1 w2 :
  rng w1 = rng w2 ->
  let drawn := rvs (parameters self) (num_observations self) (rng w1) in
  let outcome :=
    match fst drawn with
    | Ok returns_1day =>
        np_percentile (compound (ndays self) returns_1day) q_value
    | Raise e => Raise e
    end in
  get_percentile rvs self q_value w1
    = Some (outcome, World (snd drawn) (log w1))
  /\ get_percentile rvs self q_value w2
     = Some (outcome, World (snd drawn) (log w2))
  /\ (first <- get_percentile rvs self q_value ;;
      second <- get_percentile rvs self q_value ;;
      ret (first, second)) w1
     = match outcome with
       | Raise e => Some (Raise e, World (snd drawn) (log w1))
       | Ok first =>
           let redrawn :=
             rvs (parameters self) (num_observations self) (snd drawn) in
           Some (match fst redrawn with
                 | Ok returns_1day =>
                     match np_percentile
                             (compound (ndays self) returns_1day) q_value
                     with
                     | Ok second => Ok (first, second)
                     | Raise e => Raise e
                     end
                 | Raise e => Raise e
                 end,
                 World (snd redrawn) (log w1))
       end.
Proof.
  intros Hrng drawn outcome.
  assert (H1 : get_percentile rvs self q_value w1
               = Some (outcome, World (snd drawn) (log w1)))
    by apply get_percentile_run.
  split; [exact H1|]. split.
  - rewrite get_percentile_run, <- Hrng. reflexivity.
  - unfold bind at 1. rewrite H1. destruct outcome as [first|e]; [|reflexivity].
    unfold bind. rewrite get_percentile_run. cbn [rng log fst snd].
    destruct (rvs (parameters self) (num_observations self) (snd drawn))
      as [[xs|e] g]; cbn [fst snd]; [|reflexivity].
    destruct (np_percentile (compound (ndays self) xs) q_value);
      reflexivity.
Qed.

(** *** [simulate_monte_carlo] *)

(** The accumulating loops of the program: [for _ in l:
    acc.append(get_percentile())]. *)
Lemma collect_percentiles {A} (self : Returns) (q_value : num) (l : list A) :
  forall acc w r w',
    for_each l
      (fun _ acc => x <- get_percentile rvs self q_value ;;
                    ret (append acc x)) acc w = Some (r, w') ->
    log w' = log w
    /\ match r with
       | Ok acc' => length acc' = (length acc + length l)%nat
       | Raise e =>
           l <> []
           /\ exists w0, get_percentile rvs self q_value w0
                         = Some (Raise e, w')
       end.
Proof.
  induction l as [|a l IH]; intros acc w r w' Hrun; simpl in Hrun.
  - inversion Hrun; subst. split; [reflexivity|simpl; lia].
  - apply bind_inv in Hrun as [(acc1 & w1 & Hb & Hk)|(e & Hb & ->)].
    + apply bind_inv in Hb as [(x & w2 & Hg & Hr)|(e & Hg & Habs)];
        [|discriminate].
      inversion Hr; subst. apply IH in Hk as [Hlog Hres].
      apply get_percentile_log in Hg. split; [congruence|].
      destruct r as [acc'|e].
      * rewrite Hres, length_append. simpl. lia.
      * destruct Hres as [_ Hres]. split; [discriminate|exact Hres].
    + apply bind_inv in Hb as [(x & w2 & Hg & Hr)|(e' & Hg & Heq)];
        [discriminate|].
      inversion Heq; subst. split.
      * now apply get_percentile_log in Hg.
      * split; [discriminate|eauto].
Qed.

Lemma collect_percentiles_returns {A} (self : Returns) (q_value : num)
    (l : list A) acc w :
  for_each l
    (fun _ acc => x <- get_percentile rvs self q_value ;;
                  ret (append acc x)) acc w <> None.
Proof.
  apply for_each_returns. intros x s w0. apply bind_returns.
  - apply get_percentile_returns.
  - discriminate.
Qed.

(** [simulate_monte_carlo] always returns or raises. *)
Lemma simulate_monte_carlo_returns num_observations ndays trials w :
  simulate_monte_carlo rvs num_observations ndays trials w <> None.
Proof. apply collect_percentiles_returns. Qed.

(** C3 (as amended).  Nothing is validated and there is no
    configuration error: with [trials < 1] the simulation returns the
    empty list at once, without drawing, whatever [ndays] and
    [num_observations] are; when it returns it returns
    [max(0, trials)] percentiles; and when it raises, the exception is
    the one of a trial: either the draw raised it, or the draw was
    made and [np.percentile] raised it on the compounded series. *)
Theorem simulate_monte_carlo_outcomes num_observations ndays trials w r w' :
  simulate_monte_carlo rvs num_observations ndays trials w = Some (r, w') ->
  (trials < 1 -> r = Ok [] /\ w' = w)
  /\ log w' = log w
  /\ match r with
     | Ok percentiles => Z.of_nat (length percentiles) = Z.max 0 trials
     | Raise e =>
         1 <= trials
         /\ exists g,
             let drawn := rvs default_levy_parameters num_observations g in
             rng w' = snd drawn
             /\ (fst drawn = Raise e
                 \/ exists returns_1day,
                      fst drawn = Ok returns_1day
                      /\ np_percentile (compound ndays returns_1day)
                                       default_q_value = Raise e)
     end.
Proof.
  unfold simulate_monte_carlo. intros Hrun. split; [|split].
  - intros Hlt. rewrite py_range_nonpos in Hrun by lia. simpl in Hrun.
    unfold ret in Hrun. inversion Hrun. auto.
  - now apply collect_percentiles in Hrun.
  - apply collect_percentiles in Hrun as [_ Hres].
    destruct r as [percentiles|e].
    + rewrite Hres, length_py_range. simpl. lia.
    + destruct Hres as [Hne [w0 Hg]]. split.
      * destruct (Z_lt_le_dec trials 1) as [Hlt|Hle]; [|exact Hle].
        now rewrite py_range_nonpos in Hne by lia.
      * rewrite get_percentile_run in Hg. simpl in Hg.
        exists (rng w0). simpl.
        destruct (rvs default_levy_parameters num_observations (rng w0))
          as [[xs|e'] g']; simpl in *; inversion Hg; subst; simpl.
        -- split; [reflexivity|]. right. exists xs. auto.
        -- split; [reflexivity|]. now left.
Qed.

End ReturnsFacts.

(* ================================================================== *)
(** ** The test-statistic procedure *)

Section TestStatisticFacts.

Context {num : Type} `{Number num} {G : Type}.
Variable rvs : list num -> Z -> G -> result (list num) * G.
Variable ks_2samp : list num -> list num -> num * num.

Local Notation "'M'" := (M (G:=G) (num:=num)).
Local Open Scope monad_scope.

Variable returns : Returns (num:=num).
Variables significance_level discrepancy : num.

Local Notation "'body'" := (ts_body rvs ks_2samp returns).
Local Notation "'cond'" := (ts_cond significance_level discrepancy).

(** One pass through the body of the loop: one draw into each sample,
    the two-sample test on every hundredth pass, and the [break] past
    200000 trials. *)
Lemma ts_body_inv s w r w' :
  body s w = Some (r, w') ->
  match r with
  | Raise e =>
      log w' = log w
      /\ exists w0, get_percentile rvs returns default_q_value w0
                    = Some (Raise e, w')
  | Ok (c, s') =>
      let trials := ts_trials s + 1 in
      exists x1 x2,
        ts_trials s' = trials
        /\ ts_p_list1 s' = append (ts_p_list1 s) x1
        /\ ts_p_list2 s' = append (ts_p_list2 s) x2
        /\ (ts_statistic s', ts_p_value s') =
           (if trials mod 100 =? 0
            then ks_2samp (ts_p_list1 s') (ts_p_list2 s')
            else (ts_statistic s, ts_p_value s))
        /\ c = (if trials >? 200000 then Break else Continue)
        /\ log w' =
           log w
           ++ (if trials mod 100 =? 0
               then [Print_statistic (ts_statistic s') (ts_p_value s') trials]
               else [])
           ++ (if trials >? 200000 then [Print_failed] else [])
  end.
Proof.
  unfold ts_body. intros Hrun.
  apply bind_inv in Hrun as [(x1 & w1 & Hg1 & Hrun)|(e & Hg1 & ->)].
  2:{ split; [now apply get_percentile_log in Hg1|eauto]. }
  apply bind_inv in Hrun as [(x2 & w2 & Hg2 & Hrun)|(e & Hg2 & ->)].
  2:{ apply get_percentile_log in Hg1. split; [|eauto].
      apply get_percentile_log in Hg2. congruence. }
  apply get_percentile_log in Hg1, Hg2.
  assert (Hlog : log w2 = log w) by congruence. clear Hg1 Hg2.
  destruct ((ts_trials s + 1) mod 100 =? 0) eqn:Hmod;
    destruct (ts_trials s + 1 >? 200000) eqn:Hcap;
    unfold bind, emit, ret, append in Hrun; simpl in Hrun;
    inversion Hrun; subst; clear Hrun; simpl;
    rewrite ?Hmod, ?Hcap; exists x1, x2; simpl;
    rewrite Hlog, ?app_nil_r;
    repeat split; try reflexivity;
    try (now rewrite <- surjective_pairing);
    now rewrite <- app_assoc.
Qed.

(** A pass that completes has made two draws, one into each sample. *)
Lemma ts_body_two_draws s w c s' w' :
  body s w = Some (Ok (c, s'), w') ->
  exists x1 w1 x2 w2,
    get_percentile rvs returns default_q_value w = Some (Ok x1, w1)
    /\ get_percentile rvs returns default_q_value w1 = Some (Ok x2, w2)
    /\ rng w' = rng w2
    /\ ts_p_list1 s' = ts_p_list1 s ++ [x1]
    /\ ts_p_list2 s' = ts_p_list2 s ++ [x2]
    /\ ts_trials s' = ts_trials s + 1.
Proof.
  unfold ts_body. intros Hrun.
  apply bind_inv in Hrun as [(x1 & w1 & Hg1 & Hrun)|(e & _ & Habs)];
    [|discriminate].
  apply bind_inv in Hrun as [(x2 & w2 & Hg2 & Hrun)|(e & _ & Habs)];
    [|discriminate].
  exists x1, w1, x2, w2. split; [exact Hg1|]. split; [exact Hg2|].
  destruct ((ts_trials s + 1) mod 100 =? 0);
    destruct (ts_trials s + 1 >? 200000);
    unfold bind, emit, ret in Hrun; simpl in Hrun;
    inversion Hrun; subst; auto.
Qed.

Lemma ts_body_returns s w : body s w <> None.
Proof.
  unfold ts_body.
  apply bind_returns; [apply get_percentile_returns|intros x1 w1].
  apply bind_returns; [apply get_percentile_returns|intros x2 w2].
  destruct ((ts_trials s + 1) mod 100 =? 0);
    destruct (ts_trials s + 1 >? 200000); discriminate.
Qed.

Lemma ts_inv_initial (w : world G num) : ts_inv w ts_initial w.
Proof.
  unfold ts_inv, ts_initial; simpl. repeat split; try lia.
  apply log_grows_refl.
Qed.

Lemma ts_body_step w0 s w r w' :
  ts_inv w0 s w -> cond s = true -> body s w = Some (r, w') ->
  match r with
  | Ok (Continue, s') => ts_inv w0 s' w'
  | Ok (Break, s') => ts_post significance_level discrepancy w0 By_break s' w'
  | Raise e => ts_raised rvs returns w0 e w'
  end.
Proof.
  intros (Htr & Hl1 & Hl2 & Hlog) Hc Hrun. apply ts_body_inv in Hrun.
  destruct r as [[c s']|e].
  - destruct Hrun as (x1 & x2 & Ht & H1 & H2 & Hsp & Hctl & Hlog').
    assert (Hg : log_grows is_print w0 w').
    { apply (log_grows_trans _ _ _ _ Hlog). eexists. split; [exact Hlog'|].
      destruct ((ts_trials s + 1) mod 100 =? 0);
        destruct (ts_trials s + 1 >? 200000); reflexivity. }
    assert (Hlen1 : Z.of_nat (length (ts_p_list1 s')) = ts_trials s')
      by (rewrite H1, length_append, Ht; lia).
    assert (Hlen2 : Z.of_nat (length (ts_p_list2 s')) = ts_trials s')
      by (rewrite H2, length_append, Ht; lia).
    destruct (ts_trials s + 1 >? 200000) eqn:Hcap; subst c.
    + apply Z.gtb_lt in Hcap.
      assert (Hlast : ts_trials s + 1 = 200001) by lia.
      unfold ts_post. repeat split; auto; try lia.
      * rewrite Hlast in Hsp. simpl in Hsp.
        unfold ts_cond in *. inversion Hsp. congruence.
      * rewrite Hlast in Hlog'. simpl in Hlog'. eauto.
    + rewrite Z.gtb_ltb in Hcap. apply Z.ltb_ge in Hcap.
      unfold ts_inv. repeat split; auto; lia.
  - destruct Hrun as [Hlog' Hex]. split; [|exact Hex].
    apply (log_grows_trans _ _ _ _ Hlog). now apply log_grows_same.
Qed.

Lemma ts_at_exit (w0 : world G num) s w :
  ts_inv w0 s w -> cond s = false ->
  ts_post significance_level discrepancy w0 Condition_false s w.
Proof. intros (Htr & Hl1 & Hl2 & Hlog) Hc. now repeat split. Qed.

(** Every way the loop can end. *)
Lemma ts_loop_outcomes w r w' :
  ts_loop rvs ks_2samp returns significance_level discrepancy w
    = Some (r, w') ->
  match r with
  | Ok (e, s) => ts_post significance_level discrepancy w e s w'
  | Raise e => ts_raised rvs returns w e w'
  end.
Proof.
  unfold ts_loop. intros Hrun.
  apply (while_loop_rule cond body (ts_inv w)
           (ts_post significance_level discrepancy w)
           (ts_raised rvs returns w))
    in Hrun; auto.
  - apply ts_at_exit.
  - apply ts_body_step.
  - apply ts_inv_initial.
Qed.

(** The loop never runs out of the fuel of its model: the [break] past
    200000 trials bounds it. *)
Lemma ts_loop_returns w :
  ts_loop rvs ks_2samp returns significance_level discrepancy w <> None.
Proof.
  unfold ts_loop.
  apply (while_loop_returns cond body (ts_inv w)
           (ts_post significance_level discrepancy w)
           (ts_raised rvs returns w))
    with (measure := fun s => Z.to_nat (200001 - ts_trials s)).
  - apply ts_body_step.
  - intros; apply ts_body_returns.
  - intros s w1 (Htr & _) _. lia.
  - intros s w1 s' w1' (Htr & _) _ Hb. apply ts_body_inv in Hb.
    destruct Hb as (x1 & x2 & Ht & _). lia.
  - apply ts_inv_initial.
  - unfold ts_initial; simpl. lia.
Qed.

(** What the procedure returns once its loop is left. *)
Lemma check_test_statistic_of_loop w e s w' :
  ts_loop rvs ks_2samp returns significance_level discrepancy w
    = Some (Ok (e, s), w') ->
  check_test_statistic rvs ks_2samp returns significance_level discrepancy w
    = Some (Ok (Pair_list_int (ts_p_list1 s ++ ts_p_list2 s) (ts_trials s)),
            w').
Proof.
  intros Hrun. unfold check_test_statistic.
  now rewrite (bind_ok _ _ _ _ _ Hrun).
Qed.

(** C4 (as amended).  A run whose trial count exceeds the hard cap
    ends without an exception: the procedure prints "Simulation
    failed!" and returns the pair [(p_list1 + p_list2, trials)] with
    [trials = 200001], both samples holding 200001 percentiles, the
    stopping condition still unmet, and nothing handed to pyplot.  The
    returned value is that plain pair: it has no flag and is no
    separate variant. *)
Theorem ts_cap_exceeded w s w' :
  ts_loop rvs ks_2samp returns significance_level discrepancy w
    = Some (Ok (By_break, s), w') ->
  check_test_statistic rvs ks_2samp returns significance_level discrepancy w
    = Some (Ok (Pair_list_int (ts_p_list1 s ++ ts_p_list2 s) 200001), w')
  /\ Z.of_nat (length (ts_p_list1 s)) = 200001
  /\ Z.of_nat (length (ts_p_list2 s)) = 200001
  /\ cond s = true
  /\ (exists l, log w' = l ++ [Print_failed])
  /\ log_grows is_print w w'.
Proof.
  intros Hrun. pose proof (ts_loop_outcomes _ _ _ Hrun) as Hpost.
  destruct Hpost as (H1 & H2 & Hgrows & Hc & Ht & Hl).
  rewrite (check_test_statistic_of_loop _ _ _ _ Hrun), Ht.
  repeat split; auto; congruence.
Qed.

(** When no draw fails and the two-sample test never meets the
    thresholds, the loop is left through the hard cap. *)
Lemma ts_loop_never_converging w :
  (forall w0, exists x w1,
      get_percentile rvs returns default_q_value w0 = Some (Ok x, w1)) ->
  (forall l1 l2,
      gtb (fst (ks_2samp l1 l2)) discrepancy
      || ltb (snd (ks_2samp l1 l2)) significance_level = true) ->
  cond ts_initial = true ->
  exists s w',
    ts_loop rvs ks_2samp returns significance_level discrepancy w
      = Some (Ok (By_break, s), w').
Proof.
  intros Hdraw Hks Hinit.
  pose proof (ts_loop_returns w) as Hret.
  destruct (ts_loop rvs ks_2samp returns significance_level discrepancy w)
    as [[r w']|] eqn:Hrun; [clear Hret|contradiction].
  unfold ts_loop in Hrun.
  apply (while_loop_rule cond body
           (fun s w1 => ts_inv w s w1 /\ cond s = true)
           (fun e _ _ => e = By_break)
           (fun _ _ => False)) in Hrun.
  - destruct r as [[e s]|e]; [subst e; eauto|contradiction].
  - intros s w1 [_ Hc] Hc'. congruence.
  - intros s w1 r1 w1' [HI Hc] _ Hb.
    pose proof (ts_body_step w s w1 r1 w1' HI Hc Hb) as Hs.
    apply ts_body_inv in Hb. destruct r1 as [[[|] s']|e]; auto.
    + split; [exact Hs|].
      destruct Hb as (x1 & x2 & _ & _ & _ & Hsp & _).
      unfold ts_cond in *.
      destruct ((ts_trials s + 1) mod 100 =? 0).
      * specialize (Hks (ts_p_list1 s') (ts_p_list2 s')).
        rewrite <- Hsp in Hks. exact Hks.
      * inversion Hsp. congruence.
    + destruct Hb as [_ [w2 Hg]]. destruct (Hdraw w2) as (x & w3 & Hok).
      congruence.
  - split; [apply ts_inv_initial|exact Hinit].
Qed.

End TestStatisticFacts.

(* ================================================================== *)
(** ** The loop tests in binary64 *)

Section BinaryOrderFacts.

Lemma SFcompare_antisym (x y : spec_float) :
  SFcompare x y = option_map CompOpp (SFcompare y x).
Proof.
  destruct x as [sx|sx| |sx mx ex], y as [sy|sy| |sy my ey]; simpl;
    try reflexivity;
    try (destruct sx; reflexivity); try (destruct sy; reflexivity);
    try (destruct sx, sy; reflexivity).
  destruct sx, sy; try reflexivity;
    rewrite (Z.compare_antisym ey ex); destruct (ey ?= ex)%Z; simpl;
    try reflexivity.
  - f_equal. f_equal. symmetry. apply (Pos.compare_cont_antisym my mx Eq).
  - f_equal. symmetry. apply (Pos.compare_cont_antisym my mx Eq).
Qed.

(** Only a NaN is not below or equal to itself. *)
Lemma SFleb_refl (x : spec_float) :
  SFleb x x = match x with S754_nan => false | _ => true end.
Proof.
  unfold SFleb. destruct x as [s|s| |s m e]; simpl; try reflexivity.
  - destruct s; reflexivity.
  - rewrite Z.compare_refl, Pos.compare_cont_refl. destruct s; reflexivity.
Qed.

Lemma SFcompare_None (x y : spec_float) :
  SFcompare x y = None -> SFleb x x && SFleb y y = false.
Proof.
  rewrite !SFleb_refl.
  destruct x as [sx|sx| |sx mx ex], y as [sy|sy| |sy my ey]; simpl;
    try reflexivity; discriminate.
Qed.

Lemma SFcompare_nan (x y : spec_float) :
  SFleb x x && SFleb y y = false -> SFcompare x y = None.
Proof.
  rewrite !SFleb_refl.
  destruct x as [sx|sx| |sx mx ex], y as [sy|sy| |sy my ey]; simpl;
    try reflexivity; discriminate.
Qed.

Lemma SF_not_lt (x y : spec_float) :
  SFltb y x = false ->
  SFleb x y = negb (negb (SFleb x x) || negb (SFleb y y)).
Proof.
  rewrite <- negb_andb, negb_involutive. unfold SFltb at 1, SFleb at 1.
  destruct (SFleb x x && SFleb y y) eqn:Hnan.
  - rewrite (SFcompare_antisym x y).
    destruct (SFcompare y x) as [[| |]|] eqn:Hc; simpl; try reflexivity;
      try discriminate.
    intros _. apply SFcompare_None in Hc. rewrite andb_comm in Hc.
    congruence.
  - now rewrite (SFcompare_nan _ _ Hnan).
Qed.

(** In binary64 [a > b] is false exactly when [a <= b] or one of the
    two is a NaN. *)
Lemma float_not_gt (a b : float) :
  gtb a b = false -> leb a b = negb (is_nan a || is_nan b).
Proof.
  unfold gtb, is_nan. cbn [ltb leb Number_float].
  rewrite FloatAxioms.ltb_spec, !FloatAxioms.leb_spec. apply SF_not_lt.
Qed.

End BinaryOrderFacts.

Section TestStatisticFloatFacts.

Context {G : Type}.
Variable rvs : list float -> Z -> G -> result (list float) * G.
Variable ks_2samp : list float -> list float -> float * float.
Variable returns : Returns (num:=float).
Variables significance_level discrepancy : float.

Local Open Scope monad_scope.

Local Notation "'body'" := (ts_body rvs ks_2samp returns).
Local Notation "'cond'" := (ts_cond significance_level discrepancy).
Local Notation "'draw'" := (get_percentile rvs returns default_q_value).

(** C2 (as amended).  In binary64, the arithmetic of the program.
    While [statistic > discrepancy] or [p_value < significance_level]
    holds when the loop condition is evaluated, the body runs once
    more, and a pass of the body that completes has drawn two
    percentiles from the generator, one appended to each sample.  A
    run of the loop that ends without the [break] of the hard cap ends
    in a state where both tests fail together: [statistic >
    discrepancy] is false and [p_value < significance_level] is false.
    That is [statistic <= discrepancy] exactly when neither of the two
    is a NaN, and [p_value >= significance_level] exactly when neither
    of those two is a NaN: with a NaN among them the loop is left
    although the inequality does not hold.  The only other way out is
    the [break], at trial 200001, with the condition still true. *)
Theorem ts_loop_stops_when_both_tests_fail w e s w' :
  ts_loop rvs ks_2samp returns significance_level discrepancy w
    = Some (Ok (e, s), w') ->
  (forall fuel s0,
      gtb (ts_statistic s0) discrepancy
      || ltb (ts_p_value s0) significance_level = true ->
      while_loop (S fuel) cond body s0 =
      (cs <- body s0 ;;
       match fst cs with
       | Break => ret (By_break, snd cs)
       | Continue => while_loop fuel cond body (snd cs)
       end))
  /\ (forall s0 w0 c s1 w1,
        body s0 w0 = Some (Ok (c, s1), w1) ->
        exists x1 w01 x2 w02,
          draw w0 = Some (Ok x1, w01)
          /\ draw w01 = Some (Ok x2, w02)
          /\ rng w1 = rng w02
          /\ ts_p_list1 s1 = ts_p_list1 s0 ++ [x1]
          /\ ts_p_list2 s1 = ts_p_list2 s0 ++ [x2]
          /\ ts_trials s1 = ts_trials s0 + 1)
  /\ match e with
     | Condition_false =>
         gtb (ts_statistic s) discrepancy = false
         /\ ltb (ts_p_value s) significance_level = false
         /\ leb (ts_statistic s) discrepancy
            = negb (is_nan (ts_statistic s) || is_nan discrepancy)
         /\ geb (ts_p_value s) significance_level
            = negb (is_nan (ts_p_value s) || is_nan significance_level)
     | By_break =>
         ts_trials s = 200001
         /\ gtb (ts_statistic s) discrepancy
            || ltb (ts_p_value s) significance_level = true
     end.
Proof.
  intros Hrun. split; [|split].
  - intros fuel s0 Hc. simpl. unfold ts_cond. now rewrite Hc.
  - intros s0 w0 c s1 w1. apply ts_body_two_draws.
  - apply ts_loop_outcomes in Hrun. destruct Hrun as (_ & _ & _ & He).
    destruct e.
    + destruct He as [Hc _]. unfold ts_cond in Hc.
      apply orb_false_iff in Hc as [Hs Hp].
      split; [exact Hs|]. split; [exact Hp|]. split.
      * now apply float_not_gt.
      * unfold geb. rewrite orb_comm. now apply float_not_gt.
    + destruct He as (Hc & Ht & _). auto.
Qed.

End TestStatisticFloatFacts.

(* ================================================================== *)
(** ** The CLT and monitoring procedures *)

Section FixedLoopFacts.

Context {num : Type} `{Number num} {G : Type}.
Variable rvs : list num -> Z -> G -> result (list num) * G.
Variable np_mean : list num -> num.
Variable np_std : list num -> num.

Local Notation "'M'" := (M (G:=G) (num:=num)).
Local Open Scope monad_scope.

Variable returns : Returns (num:=num).

(** *** 'CLT' *)

Lemma clt_body_inv s w r w' :
  clt_body rvs np_mean np_std returns s w = Some (r, w') ->
  match r with
  | Ok (c, s') =>
      c = Continue /\ log w' = log w
      /\ clt_samples s' = clt_samples s + 1
      /\ length (clt_mean s') = S (length (clt_mean s))
  | Raise e => draw_raised rvs returns w e w'
  end.
Proof.
  unfold clt_body. intros Hrun.
  apply bind_inv in Hrun as [(p & w1 & Hc & Hr)|(e & Hc & ->)].
  - apply collect_percentiles in Hc as [Hlog _].
    unfold ret in Hr. inversion Hr; subst; simpl.
    now rewrite length_append.
  - apply collect_percentiles in Hc as [Hlog [_ Hex]]. now split.
Qed.

Lemma clt_loop_outcomes w r w' :
  while_loop (Z.to_nat clt_MAX_SAMPLES)
    (fun s => clt_samples s <? clt_MAX_SAMPLES)
    (clt_body rvs np_mean np_std returns)
    {| clt_std := []; clt_mean := []; clt_samples := 0 |} w
    = Some (r, w') ->
  match r with
  | Ok (e, s) =>
      log w' = log w
      /\ Z.of_nat (length (clt_mean s)) = clt_MAX_SAMPLES
  | Raise e => draw_raised rvs returns w e w'
  end.
Proof.
  intros Hrun.
  apply (while_loop_rule _ _ (clt_inv w)
           (fun _ s w1 => log w1 = log w
              /\ Z.of_nat (length (clt_mean s)) = clt_MAX_SAMPLES)
           (draw_raised rvs returns w)) in Hrun; auto.
  - intros s w1 (Hs & Hl & Hlog) Hc. apply Z.ltb_ge in Hc.
    split; [exact Hlog|lia].
  - intros s w1 r1 w1' (Hs & Hl & Hlog) Hc Hb. apply Z.ltb_lt in Hc.
    apply clt_body_inv in Hb. destruct r1 as [[c s']|e].
    + destruct Hb as (-> & Hlog' & Hs' & Hl').
      unfold clt_inv. repeat split; try lia; congruence.
    + destruct Hb as [Hlog' Hex]. split; [congruence|exact Hex].
  - unfold clt_inv, clt_MAX_SAMPLES; simpl. repeat split; lia.
Qed.

Lemma clt_body_returns s w :
  clt_body rvs np_mean np_std returns s w <> None.
Proof.
  unfold clt_body. apply bind_returns.
  - apply collect_percentiles_returns.
  - discriminate.
Qed.

Lemma clt_loop_returns w :
  while_loop (Z.to_nat clt_MAX_SAMPLES)
    (fun s => clt_samples s <? clt_MAX_SAMPLES)
    (clt_body rvs np_mean np_std returns)
    {| clt_std := []; clt_mean := []; clt_samples := 0 |} w <> None.
Proof.
  apply (while_loop_returns _ _
           (fun s _ => 0 <= clt_samples s <= clt_MAX_SAMPLES)
           (fun _ _ _ => True) (fun _ _ => True))
    with (measure := fun s => Z.to_nat (clt_MAX_SAMPLES - clt_samples s)).
  - intros s w1 r w1' Hs Hc Hb. apply Z.ltb_lt in Hc.
    apply clt_body_inv in Hb. destruct r as [[[|] s']|e]; auto.
    destruct Hb as (_ & _ & Hs' & _). lia.
  - intros; apply clt_body_returns.
  - intros s w1 Hs Hc. apply Z.ltb_lt in Hc. lia.
  - intros s w1 s' w1' Hs Hc Hb. apply Z.ltb_lt in Hc.
    apply clt_body_inv in Hb. destruct Hb as (_ & _ & Hs' & _). lia.
  - unfold clt_MAX_SAMPLES; simpl; lia.
  - unfold clt_MAX_SAMPLES; simpl; lia.
Qed.

Lemma check_clt_outcomes w r w' :
  check_clt rvs np_mean np_std returns w = Some (r, w') ->
  match r with
  | Ok v =>
      exists mean,
        v = Pair_list_int mean clt_MAX_TRIALS
        /\ Z.of_nat (length mean) = clt_MAX_SAMPLES
        /\ log w' = log w ++ clt_figure mean
  | Raise e => draw_raised rvs returns w e w'
  end.
Proof.
  unfold check_clt. intros Hrun.
  apply bind_inv in Hrun as [([e s] & w1 & Hloop & Hrest)|(e & Hloop & ->)].
  - apply clt_loop_outcomes in Hloop as [Hlog Hlen].
    unfold bind, emit, ret, append in Hrest. simpl in Hrest.
    inversion Hrest; subst; clear Hrest. exists (clt_mean s).
    repeat split; auto. simpl. rewrite Hlog.
    now rewrite <- !app_assoc.
  - now apply clt_loop_outcomes in Hloop.
Qed.

Lemma check_clt_returns w :
  check_clt rvs np_mean np_std returns w <> None.
Proof.
  unfold check_clt. apply bind_returns.
  - apply clt_loop_returns.
  - discriminate.
Qed.

(** *** 'monitoring' *)

Lemma monitoring_body_inv s w r w' :
  monitoring_body rvs np_mean returns s w = Some (r, w') ->
  match r with
  | Ok (c, s') =>
      c = Continue /\ log w' = log w
      /\ mon_trial s' = mon_trial s + 1
      /\ length (mon_mean_perc s') = S (length (mon_mean_perc s))
      /\ length (mon_trials s') = S (length (mon_trials s))
  | Raise e => draw_raised rvs returns w e w'
  end.
Proof.
  unfold monitoring_body. intros Hrun.
  apply bind_inv in Hrun as [(x & w1 & Hg & Hr)|(e & Hg & ->)].
  - apply get_percentile_log in Hg.
    unfold ret in Hr. inversion Hr; subst; simpl.
    now rewrite !length_append.
  - split; [now apply get_percentile_log in Hg|eauto].
Qed.

Lemma monitoring_loop_outcomes w r w' :
  while_loop (Z.to_nat monitoring_MAX_TRIALS)
    (fun s => mon_trial s <? monitoring_MAX_TRIALS)
    (monitoring_body rvs np_mean returns)
    {| mon_mean_perc := []; mon_percentiles := [];
       mon_trial := 0; mon_trials := [] |} w
    = Some (r, w') ->
  match r with
  | Ok (e, s) =>
      log w' = log w
      /\ Z.of_nat (length (mon_mean_perc s)) = monitoring_MAX_TRIALS
      /\ Z.of_nat (length (mon_trials s)) = monitoring_MAX_TRIALS
  | Raise e => draw_raised rvs returns w e w'
  end.
Proof.
  intros Hrun.
  apply (while_loop_rule _ _ (monitoring_inv w)
           (fun _ s w1 => log w1 = log w
              /\ Z.of_nat (length (mon_mean_perc s)) = monitoring_MAX_TRIALS
              /\ Z.of_nat (length (mon_trials s)) = monitoring_MAX_TRIALS)
           (draw_raised rvs returns w)) in Hrun; auto.
  - intros s w1 (Hs & Hl & Ht & Hlog) Hc. apply Z.ltb_ge in Hc.
    split; [exact Hlog|lia].
  - intros s w1 r1 w1' (Hs & Hl & Ht & Hlog) Hc Hb. apply Z.ltb_lt in Hc.
    apply monitoring_body_inv in Hb. destruct r1 as [[c s']|e].
    + destruct Hb as (-> & Hlog' & Hs' & Hl' & Ht').
      unfold monitoring_inv. repeat split; try lia; congruence.
    + destruct Hb as [Hlog' Hex]. split; [congruence|exact Hex].
  - unfold monitoring_inv, monitoring_MAX_TRIALS; simpl. repeat split; lia.
Qed.

Lemma monitoring_loop_returns w :
  while_loop (Z.to_nat monitoring_MAX_TRIALS)
    (fun s => mon_trial s <? monitoring_MAX_TRIALS)
    (monitoring_body rvs np_mean returns)
    {| mon_mean_perc := []; mon_percentiles := [];
       mon_trial := 0; mon_trials := [] |} w <> None.
Proof.
  apply (while_loop_returns _ _
           (fun s _ => 0 <= mon_trial s <= monitoring_MAX_TRIALS)
           (fun _ _ _ => True) (fun _ _ => True))
    with (measure :=
            fun s => Z.to_nat (monitoring_MAX_TRIALS - mon_trial s)).
  - intros s w1 r w1' Hs Hc Hb. apply Z.ltb_lt in Hc.
    apply monitoring_body_inv in Hb. destruct r as [[[|] s']|e]; auto.
    destruct Hb as (_ & _ & Hs' & _). lia.
  - intros s w1 _ _. unfold monitoring_body.
    apply bind_returns; [apply get_percentile_returns|discriminate].
  - intros s w1 Hs Hc. apply Z.ltb_lt in Hc. lia.
  - intros s w1 s' w1' Hs Hc Hb. apply Z.ltb_lt in Hc.
    apply monitoring_body_inv in Hb. destruct Hb as (_ & _ & Hs' & _). lia.
  - unfold monitoring_MAX_TRIALS; simpl; lia.
  - unfold monitoring_MAX_TRIALS; simpl; lia.
Qed.

Lemma check_monitoring_outcomes w r w' :
  check_monitoring rvs np_mean returns w = Some (r, w') ->
  match r with
  | Ok v =>
      exists mean_perc trials,
        v = Pair_list_list mean_perc trials
        /\ Z.of_nat (length mean_perc) = monitoring_MAX_TRIALS
        /\ Z.of_nat (length trials) = monitoring_MAX_TRIALS
        /\ log w' = log w ++ monitoring_figure trials mean_perc
  | Raise e => draw_raised rvs returns w e w'
  end.
Proof.
  unfold check_monitoring. intros Hrun.
  apply bind_inv in Hrun as [([e s] & w1 & Hloop & Hrest)|(e & Hloop & ->)].
  - apply monitoring_loop_outcomes in Hloop as (Hlog & Hl & Ht).
    unfold bind, emit, ret, append in Hrest. simpl in Hrest.
    inversion Hrest; subst; clear Hrest.
    exists (mon_mean_perc s), (mon_trials s).
    repeat split; auto. simpl. rewrite Hlog.
    now rewrite <- !app_assoc.
  - now apply monitoring_loop_outcomes in Hloop.
Qed.

Lemma check_monitoring_returns w :
  check_monitoring rvs np_mean returns w <> None.
Proof.
  unfold check_monitoring. apply bind_returns.
  - apply monitoring_loop_returns.
  - discriminate.
Qed.

End FixedLoopFacts.

(* ================================================================== *)
(** ** [check_monte_carlo_trials] *)

Section CheckFacts.

Context {num : Type} `{Number num} {G : Type}.
Variable rvs : list num -> Z -> G -> result (list num) * G.
Variable ks_2samp : list num -> list num -> num * num.
Variable np_mean : list num -> num.
Variable np_std : list num -> num.

(** The procedure always returns or raises: none of its three loops
    runs out of the fuel of its model. *)
Lemma check_monte_carlo_trials_returns method num_observations ndays
    significance_level discrepancy w :
  check_monte_carlo_trials rvs ks_2samp np_mean np_std
    method num_observations ndays significance_level discrepancy w
    <> None.
Proof.
  unfold check_monte_carlo_trials.
  destruct (String.eqb method "CLT"); [apply check_clt_returns|].
  destruct (String.eqb method "monitoring"); [apply check_monitoring_returns|].
  destruct (String.eqb method "test_statistic"); [|discriminate].
  unfold check_test_statistic. apply bind_returns; [|discriminate].
  apply ts_loop_returns.
Qed.

Lemma check_method_test_statistic num_observations ndays
    significance_level discrepancy :
  check_monte_carlo_trials rvs ks_2samp np_mean np_std
    "test_statistic" num_observations ndays
        significance_level discrepancy
  = check_test_statistic rvs ks_2samp
      (Returns_init num_observations ndays default_levy_parameters)
      significance_level discrepancy.
Proof. reflexivity. Qed.

Lemma check_method_clt num_observations ndays
    significance_level discrepancy :
  check_monte_carlo_trials rvs ks_2samp np_mean np_std
    "CLT" num_observations ndays significance_level discrepancy
  = check_clt rvs np_mean np_std
      (Returns_init num_observations ndays default_levy_parameters).
Proof. reflexivity. Qed.

(** C10.  A method name other than 'CLT', 'monitoring' and
    'test_statistic' makes the procedure return [None] at once: no
    exception, no draw from the generator, nothing written. *)
Theorem check_unknown_method_returns_None method num_observations ndays
    significance_level discrepancy w :
  method <> "CLT"%string -> method <> "monitoring"%string ->
  method <> "test_statistic"%string ->
  check_monte_carlo_trials rvs ks_2samp np_mean np_std
    method num_observations ndays significance_level discrepancy w
    = Some (Ok PyNone, w).
Proof.
  intros H1 H2 H3. unfold check_monte_carlo_trials.
  apply String.eqb_neq in H1, H2, H3. now rewrite H1, H2, H3.
Qed.


(** C8 (as amended).  What each method hands to pyplot.  The
    test-statistic method (and an unknown method) renders nothing: it
    only prints.  The 'CLT' and 'monitoring' methods are not pure
    producers of data: when they return, they have drawn and shown one
    figure of the very data they return (and they write nothing when a
    draw raises). *)
Theorem check_monte_carlo_trials_rendering method num_observations ndays
    significance_level discrepancy w r w' :
  check_monte_carlo_trials rvs ks_2samp np_mean np_std
    method num_observations ndays significance_level discrepancy w
    = Some (r, w') ->
  exists new,
    log w' = log w ++ new
    /\ ((method = "CLT"%string
         /\ match r with
            | Ok v => exists mean, v = Pair_list_int mean clt_MAX_TRIALS
                                   /\ new = clt_figure mean
            | Raise _ => new = []
            end)
        \/ (method = "monitoring"%string
            /\ match r with
               | Ok v => exists mean_perc trials,
                   v = Pair_list_list mean_perc trials
                   /\ new = monitoring_figure trials mean_perc
               | Raise _ => new = []
               end)
        \/ (method <> "CLT"%string /\ method <> "monitoring"%string
            /\ forallb is_print new = true)).
Proof.
  unfold check_monte_carlo_trials. intros Hrun.
  destruct (String.eqb_spec method "CLT") as [E1|E1].
  { apply check_clt_outcomes in Hrun. destruct r as [v|e].
    - destruct Hrun as (mean & -> & _ & Hlog).
      exists (clt_figure mean). split; [exact Hlog|].
      left. split; [exact E1|]. eauto.
    - destruct Hrun as [Hlog _]. exists []. rewrite app_nil_r. auto. }
  destruct (String.eqb_spec method "monitoring") as [E2|E2].
  { apply check_monitoring_outcomes in Hrun. destruct r as [v|e].
    - destruct Hrun as (mean_perc & trials & -> & _ & _ & Hlog).
      exists (monitoring_figure trials mean_perc). split; [exact Hlog|].
      right; left. split; [exact E2|]. eauto.
    - destruct Hrun as [Hlog _]. exists []. rewrite app_nil_r. auto. }
  assert (Hgrows : log_grows is_print w w').
  { destruct (String.eqb method "test_statistic").
    - unfold check_test_statistic in Hrun.
      apply bind_inv in Hrun as [([e s] & w1 & Hloop & Hret)|(e & Hloop & _)].
      + apply ts_loop_outcomes in Hloop as (_ & _ & Hg & _).
        unfold ret in Hret. inversion Hret; subst. exact Hg.
      + now apply ts_loop_outcomes in Hloop as [Hg _].
    - unfold ret in Hrun. inversion Hrun. apply log_grows_refl. }
  destruct Hgrows as (new & Hlog & Hnew). exists new. split; [exact Hlog|].
  right; right. auto.
Qed.

(** When no draw can fail, the procedure returns a value. *)
Lemma check_monte_carlo_trials_succeeds method num_observations ndays
    significance_level discrepancy w :
  (forall w0, exists x w1,
      get_percentile rvs
        (Returns_init num_observations ndays default_levy_parameters)
        default_q_value w0 = Some (Ok x, w1)) ->
  exists v w',
    check_monte_carlo_trials rvs ks_2samp np_mean np_std
    method num_observations ndays significance_level discrepancy w
      = Some (Ok v, w').
Proof.
  intros Hdraw.
  pose proof (check_monte_carlo_trials_returns method num_observations
                ndays significance_level discrepancy w) as Hret.
  destruct (check_monte_carlo_trials rvs ks_2samp np_mean np_std
              method num_observations ndays significance_level
              discrepancy w) as [[[v|e] w']|] eqn:Hrun;
    [eauto| |contradiction].
  exfalso. clear Hret. unfold check_monte_carlo_trials in Hrun.
  assert (Hex : exists w1,
             get_percentile rvs
               (Returns_init num_observations ndays default_levy_parameters)
               default_q_value w1 = Some (Raise e, w')).
  { destruct (String.eqb method "CLT").
    { now apply check_clt_outcomes in Hrun as [_ Hex]. }
    destruct (String.eqb method "monitoring").
    { now apply check_monitoring_outcomes in Hrun as [_ Hex]. }
    destruct (String.eqb method "test_statistic"); [|discriminate].
    unfold check_test_statistic in Hrun.
    apply bind_inv in Hrun as [(r & w1 & _ & Hret)|(e' & Hloop & Heq)];
      [discriminate|].
    inversion Heq; subst e'.
    now apply ts_loop_outcomes in Hloop as [_ Hex]. }
  destruct Hex as [w1 Hraise]. destruct (Hdraw w1) as (x & w2 & Hok).
  congruence.
Qed.

End CheckFacts.

(* ================================================================== *)
(** ** The percentile *)

Section SortFacts.

Context {num : Type} `{Number num}.

Lemma length_insert_sorted (x : num) (l : list num) :
  length (insert_sorted x l) = S (length l).
Proof.
  induction l as [|y l IH]; simpl; auto.
  destruct (leb x y || is_nan y); simpl; auto.
Qed.

Lemma length_np_sort (a : list num) : length (np_sort a) = length a.
Proof.
  induction a as [|x a IH]; simpl; auto.
  unfold np_sort in *. simpl. now rewrite length_insert_sorted, IH.
Qed.

Lemma py_item_nonneg (a : list num) (i : Z) :
  0 <= i < Z.of_nat (length a) ->
  py_item a i = nth_error a (Z.to_nat i).
Proof.
  intros Hi. unfold py_item.
  destruct (i <? 0) eqn:E; [apply Z.ltb_lt in E; lia|].
  destruct (0 <=? i) eqn:E1; [|apply Z.leb_gt in E1; lia].
  destruct (i <? Z.of_nat (length a)) eqn:E2; [|apply Z.ltb_ge in E2; lia].
  reflexivity.
Qed.

Lemma py_item_last (a : list num) :
  a <> [] ->
  py_item a (-1) = nth_error a (Z.to_nat (Z.of_nat (length a) - 1)).
Proof.
  intros Hne. unfold py_item.
  assert (0 < length a)%nat by (destruct a; simpl; [congruence|lia]).
  change (-1 <? 0) with true. cbv iota.
  destruct (0 <=? -1 + Z.of_nat (length a)) eqn:E1;
    [|apply Z.leb_gt in E1; lia].
  destruct (-1 + Z.of_nat (length a) <? Z.of_nat (length a)) eqn:E2;
    [|apply Z.ltb_ge in E2; lia].
  cbv [andb]. f_equal. lia.
Qed.

Lemma py_item_nil (i : Z) : py_item ([] : list num) i = None.
Proof.
  unfold py_item. simpl.
  destruct ((0 <=? (if i <? 0 then i + 0 else i))
            && ((if i <? 0 then i + 0 else i) <? 0))%bool; auto.
  now destruct (Z.to_nat (if i <? 0 then i + 0 else i)).
Qed.

End SortFacts.

Section ExactPercentile.

Local Open Scope Q_scope.

(** Read the operations of [Number] at [Q]. *)
Local Ltac at_Q :=
  unfold gtb, geb, zero, one, of_int in *;
  cbn [floor mul sub add div leb ltb lit Number_Q] in *.

(** No rational is a NaN. *)
Lemma is_nan_Q (x : Q) : is_nan x = false.
Proof.
  unfold is_nan. at_Q. apply negb_false_iff, Qle_bool_iff, Qle_refl.
Qed.

(** In exact arithmetic both branches of NumPy's interpolation are
    the textbook one. *)
Lemma lerp_exact (a b t : Q) : lerp a b t == a + (b - a) * t.
Proof.
  unfold lerp. at_Q. destruct (Qle_bool (1 # 2) t); ring.
Qed.

(** What [np.percentile(a, q)] computes, in exact arithmetic: the
    quantile of the specification at probability [q / 100], not at
    [q]. *)
Lemma np_percentile_is_quantile_at_q_over_100 (a : list Q) (q v : Q) :
  np_percentile a q = Ok v ->
  exists m, quantile_linear a (q / 100) = Some m /\ m == v.
Proof.
  unfold np_percentile. at_Q.
  change (q / inject_Z 100) with (q / 100).
  set (p := q / 100).
  destruct (Qle_bool (inject_Z 0) p && Qle_bool p (inject_Z 1)) eqn:Hrange;
    [|intros; discriminate].
  apply andb_true_iff in Hrange as [Hp0 Hp1].
  apply Qle_bool_iff in Hp0, Hp1.
  change (inject_Z 0) with 0 in Hp0. change (inject_Z 1) with 1 in Hp1.
  unfold np_quantile_unchecked, quantile_linear. at_Q.
  rewrite length_np_sort, (is_nan_Q (inject_Z _ * p)).
  set (arr := np_sort a).
  set (n := Z.of_nat (length a)).
  assert (Hlen : Z.of_nat (length arr) = n)
    by (unfold arr; now rewrite length_np_sort).
  destruct arr as [|x0 arr'] eqn:Harr0;
    [rewrite py_item_nil; intros; discriminate|].
  rewrite <- Harr0 in *.
  assert (Harr : arr <> []) by (rewrite Harr0; discriminate).
  assert (Hn : (1 <= n)%Z) by (rewrite <- Hlen, Harr0; simpl; lia).
  set (h := inject_Z (n - 1) * p).
  assert (Hh0 : 0 <= h).
  { unfold h. apply Qmult_le_0_compat; [|exact Hp0].
    change 0 with (inject_Z 0). rewrite <- Zle_Qle. lia. }
  assert (Hh1 : h <= inject_Z (n - 1)).
  { unfold h. rewrite Qmult_comm.
    rewrite <- (Qmult_1_l (inject_Z (n - 1))) at 2.
    apply Qmult_le_compat_r; [exact Hp1|].
    change 0 with (inject_Z 0). rewrite <- Zle_Qle. lia. }
  assert (Hbelow : negb (Qle_bool (inject_Z 0) h) = false).
  { apply negb_false_iff, Qle_bool_iff. exact Hh0. }
  rewrite Hbelow.
  destruct (Qle_bool (inject_Z (n - 1)) h) eqn:Habove.
  - apply Qle_bool_iff in Habove.
    assert (Hh : h == inject_Z (n - 1)) by (now apply Qle_antisym).
    assert (Hfl : Qfloor h = (n - 1)%Z)
      by (rewrite (Qfloor_comp _ _ Hh); apply Qfloor_Z).
    rewrite Hfl, py_item_last by exact Harr. rewrite Hlen.
    destruct (nth_error arr (Z.to_nat (n - 1))) as [lo|] eqn:Hlo;
      [|intros; discriminate].
    rewrite is_nan_Q. intros Hv. inversion Hv; subst v; clear Hv.
    destruct ((0 <=? n - 1)%Z) eqn:E1; [|apply Z.leb_gt in E1; lia].
    destruct ((n - 1 <? n)%Z) eqn:E2; [|apply Z.ltb_ge in E2; lia].
    cbv [andb]. eexists. split; [reflexivity|].
    rewrite nth_overflow by lia. rewrite lerp_exact. ring.
  - assert (Hlt : h < inject_Z (n - 1)).
    { apply Qnot_le_lt. intros Hle. apply Qle_bool_iff in Hle. congruence. }
    set (i := Qfloor h).
    assert (Hi0 : (0 <= i)%Z).
    { change 0%Z with (Qfloor 0). now apply Qfloor_resp_le. }
    assert (Hi1 : (i < n - 1)%Z).
    { rewrite Zlt_Qlt. eapply Qle_lt_trans; [apply Qfloor_le|exact Hlt]. }
    rewrite py_item_last by exact Harr. rewrite Hlen.
    destruct (nth_error arr (Z.to_nat (n - 1))) as [last|] eqn:Hlast;
      [|intros; discriminate].
    rewrite !py_item_nonneg by lia.
    destruct (nth_error arr (Z.to_nat i)) as [lo|] eqn:Hlo;
      [|intros; discriminate].
    destruct (nth_error arr (Z.to_nat (i + 1))) as [hi|] eqn:Hhi;
      [|intros; discriminate].
    rewrite is_nan_Q. intros Hv. inversion Hv; subst v; clear Hv.
    destruct ((0 <=? i)%Z) eqn:E1; [|apply Z.leb_gt in E1; lia].
    destruct ((i <? n)%Z) eqn:E2; [|apply Z.ltb_ge in E2; lia].
    cbv [andb]. eexists. split; [reflexivity|].
    rewrite (nth_error_nth _ _ lo Hhi), lerp_exact. ring.
Qed.

End ExactPercentile.

(* ================================================================== *)
(** ** When the percentile succeeds, in exact arithmetic *)

Section MoreExactPercentile.

Local Open Scope Q_scope.

Local Ltac read_at_Q :=
  unfold gtb, geb, zero, one, of_int in *;
  cbn [floor mul sub add div leb ltb lit Number_Q] in *.

Lemma percentage_in_range (q : Q) :
  0 <= q -> q <= 100 ->
  Qle_bool (inject_Z 0) (q / inject_Z 100)
  && Qle_bool (q / inject_Z 100) (inject_Z 1) = true.
Proof.
  intros H0 H1. apply andb_true_iff. split; apply Qle_bool_iff.
  - apply Qle_shift_div_l; [reflexivity|]. now rewrite Qmult_0_l.
  - apply Qle_shift_div_r; [reflexivity|]. now rewrite Qmult_1_l.
Qed.

(** On a non-empty array the interpolation finds its two order
    statistics. *)
Lemma np_quantile_unchecked_ok (a : list Q) (p : Q) :
  a <> [] -> 0 <= p -> p <= 1 ->
  exists v, np_quantile_unchecked a p = Ok v.
Proof.
  intros Ha Hp0 Hp1. unfold np_quantile_unchecked. read_at_Q.
  rewrite (is_nan_Q (inject_Z _ * p)).
  set (arr := np_sort a).
  set (n := Z.of_nat (length a)).
  assert (Hlen : Z.of_nat (length arr) = n)
    by (unfold arr; now rewrite length_np_sort).
  assert (Hn : (1 <= n)%Z)
    by (unfold n; destruct a; simpl; [congruence|lia]).
  assert (Harr : arr <> [])
    by (intros E; rewrite E in Hlen; simpl in Hlen; lia).
  set (h := inject_Z (n - 1) * p).
  assert (Hh0 : 0 <= h).
  { unfold h. apply Qmult_le_0_compat; [|exact Hp0].
    change 0 with (inject_Z 0). rewrite <- Zle_Qle. lia. }
  assert (Hbelow : negb (Qle_bool (inject_Z 0) h) = false).
  { apply negb_false_iff, Qle_bool_iff. exact Hh0. }
  rewrite Hbelow.
  destruct (Qle_bool (inject_Z (n - 1)) h) eqn:Habove.
  - rewrite py_item_last by exact Harr. rewrite Hlen.
    destruct (nth_error arr (Z.to_nat (n - 1))) as [lo|] eqn:Hlo;
      [|apply nth_error_None in Hlo; lia].
    rewrite is_nan_Q. eauto.
  - assert (Hlt : h < inject_Z (n - 1)).
    { apply Qnot_le_lt. intros Hle. apply Qle_bool_iff in Hle. congruence. }
    set (i := Qfloor h).
    assert (Hi0 : (0 <= i)%Z).
    { change 0%Z with (Qfloor 0). now apply Qfloor_resp_le. }
    assert (Hi1 : (i < n - 1)%Z).
    { rewrite Zlt_Qlt. eapply Qle_lt_trans; [apply Qfloor_le|exact Hlt]. }
    rewrite py_item_last by exact Harr. rewrite Hlen.
    destruct (nth_error arr (Z.to_nat (n - 1))) as [last|] eqn:Hlast;
      [|apply nth_error_None in Hlast; lia].
    rewrite !py_item_nonneg by lia.
    destruct (nth_error arr (Z.to_nat i)) as [lo|] eqn:Hlo;
      [|apply nth_error_None in Hlo; lia].
    destruct (nth_error arr (Z.to_nat (i + 1))) as [hi|] eqn:Hhi;
      [|apply nth_error_None in Hhi; lia].
    rewrite is_nan_Q. eauto.
Qed.

Lemma np_percentile_ok (a : list Q) (q : Q) :
  a <> [] -> 0 <= q -> q <= 100 -> exists v, np_percentile a q = Ok v.
Proof.
  intros Ha H0 H1. unfold np_percentile.
  pose proof (percentage_in_range q H0 H1) as Hrange.
  apply andb_true_iff in Hrange as [Hp0 Hp1].
  read_at_Q. rewrite Hp0, Hp1. cbv [andb].
  apply Qle_bool_iff in Hp0, Hp1.
  now apply np_quantile_unchecked_ok.
Qed.

End MoreExactPercentile.

(* ================================================================== *)
(** ** Runs on the fixture *)

Module FixtureFacts.

Import Fixture.

(** On the fixture no draw fails when the window fits the series. *)
Lemma draws_succeed (n d : Z) (w : world Z Q) :
  (1 <= d <= n)%Z ->
  exists x w1,
    get_percentile rvs (Returns_init n d default_levy_parameters)
      default_q_value w = Some (Ok x, w1).
Proof.
  intros Hd. rewrite get_percentile_run.
  cbn [parameters num_observations ndays Returns_init]. unfold rvs.
  destruct (n <? 0)%Z eqn:Hneg; [apply Z.ltb_lt in Hneg; lia|].
  cbn [fst snd].
  match goal with
  | |- context [np_percentile ?a ?q] =>
      destruct (np_percentile_ok a q) as [v Hv]
  end.
  - intros Hnil.
    match type of Hnil with
    | compound ?k ?xs = [] => pose proof (compound_length k xs) as Hl
    end.
    rewrite Hnil, length_map, length_py_range in Hl. simpl in Hl. lia.
  - discriminate.
  - discriminate.
  - rewrite Hv. eauto.
Qed.

(** With one observation and a window of one day no draw fails. *)
Lemma draws_never_fail (w : world Z Q) :
  exists x w1,
    get_percentile rvs one_day default_q_value w = Some (Ok x, w1).
Proof. apply draws_succeed. lia. Qed.

Lemma ks_differ_never_meets (l1 l2 : list Q) :
  gtb (fst (ks_differ l1 l2)) default_discrepancy
  || ltb (snd (ks_differ l1 l2)) default_significance_level = true.
Proof. reflexivity. Qed.

(** The run of the loop that is cut by the hard cap. *)
Lemma capped_run :
  exists s w',
    ts_loop rvs ks_differ one_day default_significance_level
            default_discrepancy w0 = Some (Ok (By_break, s), w').
Proof.
  apply ts_loop_never_converging.
  - apply draws_never_fail.
  - apply ks_differ_never_meets.
  - reflexivity.
Qed.

End FixtureFacts.

(* ================================================================== *)
(** ** The claims on concrete runs *)

Module Runs.

Import Fixture FixtureFacts.
Local Open Scope Q_scope.

(** C1.  [get_percentile] does not return the [q]-quantile for a
    probability [q]: [np.percentile] reads [q] as a percentage.  On
    the two-day series [0, 100] and the default [q_value = 0.01] the
    call returns 0.01, the quantile at probability 0.0001, where the
    quantile at probability 0.01 (the value below which 1% of the
    mass falls) is 1. *)
Theorem get_percentile_reads_q_as_a_percentage :
  let self := Returns_init 2 1 default_levy_parameters in
  exists v w',
    get_percentile rvs self default_q_value w0 = Some (Ok v, w')
    /\ v == 1 # 100
    /\ (exists m, quantile_linear (compound 1 [0; 100]) default_q_value
                  = Some m /\ m == 1)
    /\ (exists m, quantile_linear (compound 1 [0; 100])
                    (default_q_value / 100) = Some m /\ m == v).
Proof.
  eexists. eexists. split; [vm_compute; reflexivity|].
  split; [reflexivity|]. split.
  - eexists. split; [vm_compute; reflexivity|reflexivity].
  - eexists. split; [vm_compute; reflexivity|reflexivity].
Qed.

(** The same in binary64: the default [q_value] gives 0.01 on the
    series [0.0, 100.0]. *)
Lemma np_percentile_default_q_float :
  exists r : float,
    np_percentile [of_int 0; of_int 100] default_q_value = Ok r
    /\ PrimFloat.eqb r (lit (1 # 100)) = true
    /\ PrimFloat.ltb r (of_int 1) = true.
Proof. eexists. repeat split; vm_compute; reflexivity. Qed.

(** C2, the claim as written, fails on a NaN.  With default
    thresholds and a two-sample test whose result is NaN the loop is
    left at trial 100, its condition false, although neither
    [statistic <= discrepancy] nor [p_value >= significance_level]
    holds; with NaN thresholds it is left before the first draw. *)
Lemma nan_leaves_the_loop_unconverged :
  (exists s w',
      ts_loop FloatFixture.rvs FloatFixture.ks_nan FloatFixture.one_day
        default_significance_level default_discrepancy FloatFixture.w0
      = Some (Ok (Condition_false, s), w')
      /\ ts_trials s = 100%Z
      /\ leb (ts_statistic s) default_discrepancy = false
      /\ geb (ts_p_value s) default_significance_level = false)
  /\ (exists s,
        ts_loop FloatFixture.rvs FloatFixture.ks_agree FloatFixture.one_day
          PrimFloat.nan PrimFloat.nan FloatFixture.w0
        = Some (Ok (Condition_false, s), FloatFixture.w0)
        /\ ts_trials s = 0%Z
        /\ leb (ts_statistic s) PrimFloat.nan = false
        /\ geb (ts_p_value s) PrimFloat.nan = false).
Proof.
  split.
  - do 2 eexists. split; [vm_compute; reflexivity|].
    repeat split.
  - eexists. split; [vm_compute; reflexivity|]. repeat split.
Qed.

(** A run of C2 in binary64: with a test that reports agreement the
    loop is left at trial 100, its condition false, with [statistic <=
    discrepancy] and [p_value >= significance_level]. *)
Lemma ts_loop_stops_when_both_tests_fail_run :
  exists s w',
    ts_loop FloatFixture.rvs FloatFixture.ks_agree FloatFixture.one_day
      default_significance_level default_discrepancy FloatFixture.w0
    = Some (Ok (Condition_false, s), w')
    /\ ts_trials s = 100%Z
    /\ leb (ts_statistic s) default_discrepancy = true
    /\ geb (ts_p_value s) default_significance_level = true
    /\ (forall fuel s0,
          gtb (ts_statistic s0) default_discrepancy
          || ltb (ts_p_value s0) default_significance_level = true ->
          while_loop (S fuel)
            (ts_cond default_significance_level default_discrepancy)
            (ts_body FloatFixture.rvs FloatFixture.ks_agree
               FloatFixture.one_day) s0 =
          bind (ts_body FloatFixture.rvs FloatFixture.ks_agree
                  FloatFixture.one_day s0)
            (fun cs =>
               match fst cs with
               | Break => ret (By_break, snd cs)
               | Continue =>
                   while_loop fuel
                     (ts_cond default_significance_level default_discrepancy)
                     (ts_body FloatFixture.rvs FloatFixture.ks_agree
                        FloatFixture.one_day) (snd cs)
               end))
    /\ (forall s0 (w1 : world Z float) c s1 w2,
          ts_body FloatFixture.rvs FloatFixture.ks_agree
            FloatFixture.one_day s0 w1 = Some (Ok (c, s1), w2) ->
          exists x1 w01 x2 w02,
            get_percentile FloatFixture.rvs FloatFixture.one_day
              default_q_value w1 = Some (Ok x1, w01)
            /\ get_percentile FloatFixture.rvs FloatFixture.one_day
                 default_q_value w01 = Some (Ok x2, w02)
            /\ rng w2 = rng w02
            /\ ts_p_list1 s1 = ts_p_list1 s0 ++ [x1]
            /\ ts_p_list2 s1 = ts_p_list2 s0 ++ [x2]
            /\ ts_trials s1 = (ts_trials s0 + 1)%Z)
    /\ gtb (ts_statistic s) default_discrepancy = false
    /\ ltb (ts_p_value s) default_significance_level = false
    /\ leb (ts_statistic s) default_discrepancy
       = negb (is_nan (ts_statistic s) || is_nan default_discrepancy)
    /\ geb (ts_p_value s) default_significance_level
       = negb (is_nan (ts_p_value s) || is_nan default_significance_level).
Proof.
  eexists. eexists.
  assert (Hrun :
    ts_loop FloatFixture.rvs FloatFixture.ks_agree FloatFixture.one_day
      default_significance_level default_discrepancy FloatFixture.w0
    = Some (Ok (Condition_false, _), _)) by (vm_compute; reflexivity).
  split; [exact Hrun|]. split; [reflexivity|].
  split; [reflexivity|]. split; [reflexivity|].
  exact (ts_loop_stops_when_both_tests_fail FloatFixture.rvs
           FloatFixture.ks_agree FloatFixture.one_day
           default_significance_level default_discrepancy
           FloatFixture.w0 Condition_false _ _ Hrun).
Defined.

(** C3, the claim as written, fails: nothing is validated.  With
    [trials = 0] the simulation returns the empty list; with
    [ndays = 0] it returns a percentile; with [num_observations <
    ndays] the exception is an [IndexError] of [np.percentile], raised
    after the draw (the generator has moved from 0 to 1). *)
Lemma simulate_monte_carlo_validates_nothing :
  simulate_monte_carlo rvs 5 3 0 w0 = Some (Ok [], w0)
  /\ (exists x, simulate_monte_carlo rvs 2 0 1 w0
                = Some (Ok [x], World 2%Z []))
  /\ simulate_monte_carlo rvs 1 2 1 w0
     = Some (Raise
               (IndexError "index -1 is out of bounds for axis 0 with size 0"),
             World 1%Z []).
Proof.
  split; [reflexivity|]. split; [eexists|]; vm_compute; reflexivity.
Qed.

(** A run of C3: one observation, a window of two days, one trial. *)
Lemma simulate_monte_carlo_outcomes_run :
  exists e w',
    simulate_monte_carlo rvs 1 2 1 w0 = Some (Raise e, w')
    /\ (1 <= 1)%Z
    /\ exists g,
        let drawn := rvs default_levy_parameters 1 g in
        rng w' = snd drawn
        /\ (fst drawn = Raise e
            \/ exists returns_1day,
                 fst drawn = Ok returns_1day
                 /\ np_percentile (compound 2 returns_1day) default_q_value
                    = Raise e).
Proof.
  eexists. eexists.
  assert (Hrun : simulate_monte_carlo rvs 1 2 1 w0 = Some (Raise _, _))
    by (vm_compute; reflexivity).
  split; [exact Hrun|].
  exact (proj2 (proj2 (simulate_monte_carlo_outcomes rvs 1 2 1 w0 _ _ Hrun))).
Defined.

(** C4, the claim as written, fails: the run cut by the hard cap
    returns the plain pair [(percentiles, 200001)], the shape a
    converged run returns (here [(percentiles, 100)]); the failure is
    only printed. *)
Lemma capped_run_returns_a_plain_pair :
  (exists percentiles w',
      check_monte_carlo_trials rvs ks_differ np_mean np_std
        "test_statistic" 1 1 default_significance_level
            default_discrepancy w0
      = Some (Ok (Pair_list_int percentiles 200001), w')
      /\ exists l, log w' = l ++ [Print_failed])
  /\ (exists percentiles w',
        check_monte_carlo_trials rvs ks_agree np_mean np_std
        "test_statistic" 1 1 default_significance_level
              default_discrepancy w0
        = Some (Ok (Pair_list_int percentiles 100), w')).
Proof.
  split.
  - destruct capped_run as (s & w' & Hrun).
    pose proof (ts_loop_outcomes _ _ _ _ _ _ _ _ Hrun)
      as (_ & _ & _ & _ & Ht & Hl).
    exists (ts_p_list1 s ++ ts_p_list2 s), w'. split; [|exact Hl].
    rewrite check_method_test_statistic, <- Ht.
    exact (check_test_statistic_of_loop _ _ _ _ _ _ _ _ _ Hrun).
  - eexists. eexists. vm_compute. reflexivity.
Qed.

(** A run of C4: the loop cut by the hard cap. *)
Lemma ts_cap_exceeded_run :
  exists s w',
    ts_loop rvs ks_differ one_day default_significance_level
            default_discrepancy w0 = Some (Ok (By_break, s), w')
    /\ check_test_statistic rvs ks_differ one_day
         default_significance_level default_discrepancy w0
       = Some (Ok (Pair_list_int (ts_p_list1 s ++ ts_p_list2 s) 200001), w')
    /\ Z.of_nat (length (ts_p_list1 s)) = 200001%Z
    /\ Z.of_nat (length (ts_p_list2 s)) = 200001%Z
    /\ ts_cond default_significance_level default_discrepancy s = true
    /\ (exists l, log w' = l ++ [Print_failed])
    /\ log_grows is_print w0 w'.
Proof.
  destruct capped_run as (s & w' & Hrun). exists s, w'.
  split; [exact Hrun|].
  exact (ts_cap_exceeded rvs ks_differ one_day default_significance_level
           default_discrepancy w0 s w' Hrun).
Defined.

(** C5, the claim as written, fails: no random stream is passed in,
    and two identical calls, one after the other, return different
    percentiles (0 and then 100 here). *)
Lemma identical_calls_differ :
  exists a b w1 w2,
    get_percentile rvs one_day default_q_value w0 = Some (Ok a, w1)
    /\ get_percentile rvs one_day default_q_value w1 = Some (Ok b, w2)
    /\ a == 0 /\ b == 100 /\ Qeq_bool a b = false.
Proof.
  do 4 eexists. split; [vm_compute; reflexivity|].
  split; [vm_compute; reflexivity|]. repeat split.
Qed.

(** A run of C5: the same generator state under two different logs,
    and two calls in a row. *)
Lemma get_percentile_draws_from_the_global_generator_run :
  let w1 : world Z Q := World 0%Z [Plt_show] in
  rng w0 = rng w1
  /\ let drawn := rvs (parameters one_day) (num_observations one_day) (rng w0) in
     let outcome :=
       match fst drawn with
       | Ok returns_1day =>
           np_percentile (compound (ndays one_day) returns_1day)
             default_q_value
       | Raise e => Raise e
       end in
     get_percentile rvs one_day default_q_value w0
       = Some (outcome, World (snd drawn) (log w0))
     /\ get_percentile rvs one_day default_q_value w1
        = Some (outcome, World (snd drawn) (log w1))
     /\ bind (get_percentile rvs one_day default_q_value)
          (fun first =>
             bind (get_percentile rvs one_day default_q_value)
               (fun second => ret (first, second))) w0
        = match outcome with
          | Raise e => Some (Raise e, World (snd drawn) (log w0))
          | Ok first =>
              let redrawn :=
                rvs (parameters one_day) (num_observations one_day)
                  (snd drawn) in
              Some (match fst redrawn with
                    | Ok returns_1day =>
                        match np_percentile
                                (compound (ndays one_day) returns_1day)
                                default_q_value
                        with
                        | Ok second => Ok (first, second)
                        | Raise e => Raise e
                        end
                    | Raise e => Raise e
                    end,
                    World (snd redrawn) (log w0))
          end.
Proof.
  split; [reflexivity|].
  exact (get_percentile_draws_from_the_global_generator rvs one_day
           default_q_value w0 (World 0%Z [Plt_show]) eq_refl).
Defined.

(** A run of C6: five observations, a window of three days. *)
Lemma generate_ndays_returns_length_run :
  let self := Returns_init 5 3 default_levy_parameters in
  let returns_1day := [0; 100; 200; 300; 400] in
  exists returns_ndays,
    generate_ndays_returns rvs self w0
      = Some (Ok returns_ndays, World 5%Z [])
    /\ returns_ndays = compound 3 returns_1day
    /\ Z.of_nat (length returns_ndays) = Z.max 0 (5 - 3 + 1)
    /\ ((3 > 5)%Z -> returns_ndays = []).
Proof.
  assert (Hle : (1 <= 3)%Z) by lia.
  exact (generate_ndays_returns_length rvs
           (Returns_init 5 3 default_levy_parameters) w0
           (map inject_Z [0; 100; 200; 300; 400]%Z) 5%Z Hle eq_refl).
Defined.

(** C8, the claim as written, fails: the 'CLT' method calls pyplot
    itself before it returns. *)
Lemma clt_method_renders :
  exists mean w',
    check_monte_carlo_trials rvs ks_agree np_mean np_std
        "CLT" 1 1 default_significance_level
          default_discrepancy w0
    = Some (Ok (Pair_list_int mean 15000), w')
    /\ log w' = clt_figure mean
    /\ existsb is_plt (log w') = true.
Proof.
  destruct (check_monte_carlo_trials_succeeds rvs ks_agree np_mean np_std
              "CLT" 1 1 default_significance_level default_discrepancy w0
              draws_never_fail) as (v & w' & Hrun).
  pose proof Hrun as Hout.
  rewrite check_method_clt in Hout.
  apply check_clt_outcomes in Hout as (mean & -> & _ & Hlog).
  exists mean, w'. split; [exact Hrun|]. simpl in Hlog.
  split; [exact Hlog|]. now rewrite Hlog.
Qed.

(** A run of C8: the 'CLT' method on the fixture. *)
Lemma check_monte_carlo_trials_rendering_run :
  exists v w',
    check_monte_carlo_trials rvs ks_agree np_mean np_std
        "CLT" 1 1 default_significance_level
          default_discrepancy w0 = Some (Ok v, w')
    /\ exists new,
        log w' = log w0 ++ new
        /\ (("CLT"%string = "CLT"%string
             /\ exists mean, v = Pair_list_int mean clt_MAX_TRIALS
                             /\ new = clt_figure mean)
            \/ ("CLT"%string = "monitoring"%string
                /\ exists mean_perc trials,
                    v = Pair_list_list mean_perc trials
                    /\ new = monitoring_figure trials mean_perc)
            \/ ("CLT"%string <> "CLT"%string
                /\ "CLT"%string <> "monitoring"%string
                /\ forallb is_print new = true)).
Proof.
  destruct (check_monte_carlo_trials_succeeds rvs ks_agree np_mean np_std
              "CLT" 1 1 default_significance_level default_discrepancy w0
              draws_never_fail) as (v & w' & Hrun).
  exists v, w'. split; [exact Hrun|].
  exact (check_monte_carlo_trials_rendering rvs ks_agree np_mean np_std
           "CLT" 1 1 default_significance_level default_discrepancy
           w0 (Ok v) w' Hrun).
Defined.


(** A run of C10: the method name "bootstrap". *)
Lemma check_unknown_method_returns_None_run :
  check_monte_carlo_trials rvs ks_agree np_mean np_std
    "bootstrap" 750 10 default_significance_level
        default_discrepancy w0 = Some (Ok PyNone, w0).
Proof.
  apply (check_unknown_method_returns_None rvs ks_agree np_mean np_std
           "bootstrap" 750 10 default_significance_level
           default_discrepancy w0); discriminate.
Defined.

End Runs.

(* ================================================================== *)
(** ** Further properties of the compounding step *)

Section MoreCompoundFacts.

Context {num : Type} `{Number num}.

Lemma nth_error_py_range (n : Z) (i : nat) :
  Z.of_nat i < n -> nth_error (py_range n) i = Some (Z.of_nat i).
Proof.
  intros Hi. unfold py_range.
  rewrite nth_error_map, nth_error_seq.
  destruct (Nat.ltb_spec i (Z.to_nat n)); [reflexivity|lia].
Qed.

(** A window that lies inside the array. *)
Lemma py_slice_inside {A} (l : list A) (i : nat) (d : Z) :
  0 <= d -> Z.of_nat i + d <= Z.of_nat (length l) ->
  py_slice l (Z.of_nat i) (Z.of_nat i + d)
  = firstn (Z.to_nat d) (skipn i l).
Proof.
  intros Hd Hin. unfold py_slice, py_clamp.
  destruct (Z.of_nat i <? 0) eqn:E1; [apply Z.ltb_lt in E1; lia|].
  destruct (Z.of_nat i + d <? 0) eqn:E2; [apply Z.ltb_lt in E2; lia|].
  replace (Z.max 0 (Z.min (Z.of_nat (length l)) (Z.of_nat i)))
    with (Z.of_nat i) by lia.
  replace (Z.max 0 (Z.min (Z.of_nat (length l)) (Z.of_nat i + d)))
    with (Z.of_nat i + d) by lia.
  replace (Z.of_nat i + d - Z.of_nat i) with d by lia.
  now rewrite Nat2Z.id.
Qed.

(** An empty window, wherever it is put. *)
Lemma py_slice_empty {A} (l : list A) (i : Z) : py_slice l i (i + 0) = [].
Proof.
  unfold py_slice. rewrite Z.add_0_r, Z.sub_diag. reflexivity.
Qed.

(** X1.  For a window [1 <= ndays] that fits at position [i] (that is
    [i + ndays <= L]), element [i] of the compounded series is the
    product of [x + 1] over the [ndays] one-day returns from position
    [i] on, minus 1. *)
Theorem compound_window (ndays : Z) (returns_1day : list num) (i : nat) :
  1 <= ndays ->
  Z.of_nat i + ndays <= Z.of_nat (length returns_1day) ->
  nth_error (compound ndays returns_1day) i
  = Some (sub (np_prod (map (fun x => add x one)
                            (firstn (Z.to_nat ndays) (skipn i returns_1day))))
              one).
Proof.
  intros Hd Hin. rewrite compound_eq, nth_error_map.
  rewrite nth_error_py_range by lia. simpl. do 2 f_equal.
  rewrite py_slice_inside by (rewrite ?length_map; lia).
  now rewrite skipn_map, firstn_map.
Qed.

(** X2.  With [ndays = 0] nothing is raised: every window is empty,
    its product is 1, and the result has [L + 1] elements, each
    [1 - 1]. *)
Theorem compound_zero_days (returns_1day : list num) :
  compound 0 returns_1day
  = repeat (sub one one) (S (length returns_1day)).
Proof.
  rewrite compound_eq.
  replace (Z.of_nat (length returns_1day) - 0 + 1)
    with (Z.of_nat (S (length returns_1day))) by lia.
  unfold py_range. rewrite Nat2Z.id, map_map.
  generalize (S (length returns_1day)) as n. intros n.
  generalize 0%nat as start.
  induction n as [|n IH]; intros start; simpl; [reflexivity|].
  rewrite py_slice_empty. simpl. f_equal. apply IH.
Qed.

End MoreCompoundFacts.

(* ================================================================== *)
(** ** Further properties of the simulation *)

Section MoreMonadFacts.

Context {G num : Type}.
Local Notation "'M'" := (M (G:=G) (num:=num)).
Local Open Scope monad_scope.

Lemma bind_ext {A B} (m : M A) (k k' : A -> M B) w :
  (forall a w1, k a w1 = k' a w1) -> bind m k w = bind m k' w.
Proof.
  intros Hk. unfold bind. destruct (m w) as [[[a|e] w1]|]; auto.
Qed.

Lemma bind_cong_l {A B} (m m' : M A) (k : A -> M B) w :
  m w = m' w -> bind m k w = bind m' k w.
Proof. intros Hm. unfold bind. now rewrite Hm. Qed.

Lemma bind_assoc {A B C} (m : M A) (k : A -> M B) (k' : B -> M C) w :
  bind (bind m k) k' w = bind m (fun a => bind (k a) k') w.
Proof.
  unfold bind. destruct (m w) as [[[a|e] w1]|]; auto.
Qed.

Lemma for_each_app {A S} (body : A -> S -> M S) (l1 l2 : list A) :
  forall s w,
    for_each (l1 ++ l2) body s w
    = bind (for_each l1 body s) (for_each l2 body) w.
Proof.
  induction l1 as [|x l1 IH]; intros s w; simpl; [reflexivity|].
  rewrite bind_assoc. apply bind_ext. intros s1 w1. apply IH.
Qed.

(** A body that does not look at the loop variable only counts. *)
Lemma for_each_counts {A B S} (f : S -> M S) (l : list A) (l' : list B) :
  length l = length l' ->
  forall s w, for_each l (fun _ => f) s w = for_each l' (fun _ => f) s w.
Proof.
  revert l'. induction l as [|x l IH]; intros [|y l'] Hlen s w;
    simpl in *; try discriminate; [reflexivity|].
  apply bind_ext. intros s1 w1. apply IH. lia.
Qed.

(** Collecting onto a list that is not empty. *)
Lemma collect_onto {A} (m : M num) (l : list A) :
  forall acc w,
    for_each l (fun _ acc => x <- m ;; ret (append acc x)) acc w
    = bind (for_each l (fun _ acc => x <- m ;; ret (append acc x)) [])
           (fun r => ret (acc ++ r)) w.
Proof.
  induction l as [|a l IH]; intros acc w; simpl.
  - unfold bind, ret. now rewrite app_nil_r.
  - rewrite !bind_assoc. apply bind_ext. intros x w1.
    change (for_each l (fun _ acc => x <- m ;; ret (append acc x))
              (append acc x) w1
            = bind (for_each l (fun _ acc => x <- m ;; ret (append acc x))
                      (append [] x))
                   (fun r => ret (acc ++ r)) w1).
    rewrite IH, (bind_cong_l _ _ _ _ (IH (append [] x) w1)).
    rewrite bind_assoc. apply bind_ext. intros r w2.
    unfold bind, ret, append. simpl. now rewrite <- app_assoc.
Qed.

End MoreMonadFacts.

Lemma py_range_add_length (t1 t2 : Z) :
  0 <= t1 -> 0 <= t2 ->
  length (py_range (t1 + t2)) = length (py_range t1 ++ py_range t2).
Proof.
  intros H1 H2. rewrite length_app, !length_py_range. lia.
Qed.

Section MoreSimulationFacts.

Context {num : Type} `{Number num} {G : Type}.
Variable rvs : list num -> Z -> G -> result (list num) * G.

Local Open Scope monad_scope.

(** Trials compose. *)
Lemma simulate_split num_observations ndays (t1 t2 : Z) w :
  0 <= t1 -> 0 <= t2 ->
  simulate_monte_carlo rvs num_observations ndays (t1 + t2) w
  = (p1 <- simulate_monte_carlo rvs num_observations ndays t1 ;;
     p2 <- simulate_monte_carlo rvs num_observations ndays t2 ;;
     ret (p1 ++ p2)) w.
Proof.
  intros H1 H2. unfold simulate_monte_carlo.
  rewrite (for_each_counts _ _ (py_range t1 ++ py_range t2))
    by now apply py_range_add_length.
  rewrite for_each_app. apply bind_ext. intros p1 w1.
  apply collect_onto.
Qed.

(** X3.  Trials compose: running [t1 + t2] trials is running [t1]
    trials and then [t2] more from the generator state the first run
    left, the second list of percentiles appended to the first. *)
Theorem simulate_monte_carlo_split num_observations ndays (t1 t2 : Z) w :
  0 <= t1 -> 0 <= t2 ->
  simulate_monte_carlo rvs num_observations ndays (t1 + t2) w
  = (p1 <- simulate_monte_carlo rvs num_observations ndays t1 ;;
     p2 <- simulate_monte_carlo rvs num_observations ndays t2 ;;
     ret (p1 ++ p2)) w.
Proof. apply simulate_split. Qed.

End MoreSimulationFacts.

(* ================================================================== *)
(** ** Further properties of the test-statistic procedure *)

Lemma interleave_snoc {A} (l1 l2 : list A) (x y : A) :
  length l1 = length l2 ->
  interleave (l1 ++ [x]) (l2 ++ [y]) = interleave l1 l2 ++ [x; y].
Proof.
  revert l2. induction l1 as [|a l1 IH]; intros [|b l2] Hlen;
    simpl in *; try discriminate; [reflexivity|].
  rewrite IH by lia. reflexivity.
Qed.

Lemma hundreds_next (t : Z) :
  0 <= t -> (t + 1) mod 100 = 0 ->
  hundreds (Z.to_nat ((t + 1) / 100))
  = hundreds (Z.to_nat (t / 100)) ++ [Some (t + 1)].
Proof.
  intros Ht Hmod.
  assert (Hq : (t + 1) / 100 = t / 100 + 1)
    by (Z.to_euclidean_division_equations; lia).
  assert (H0 : 0 <= t / 100) by (Z.to_euclidean_division_equations; lia).
  rewrite Hq. replace (Z.to_nat (t / 100 + 1)) with (S (Z.to_nat (t / 100)))
    by lia.
  unfold hundreds. rewrite seq_S, map_app. simpl. do 3 f_equal.
  Z.to_euclidean_division_equations; lia.
Qed.

Lemma hundreds_same (t : Z) :
  0 <= t -> (t + 1) mod 100 <> 0 ->
  hundreds (Z.to_nat ((t + 1) / 100)) = hundreds (Z.to_nat (t / 100)).
Proof.
  intros Ht Hmod. do 2 f_equal. Z.to_euclidean_division_equations; lia.
Qed.

Section MoreLoopFacts.

Context {G num : Type}.

(** A loop whose condition fails at once does nothing. *)
Lemma while_loop_exit_now {S} (fuel : nat) (cond : S -> bool)
    (body : S -> M (G:=G) (num:=num) (control * S)) (s : S) w :
  cond s = false ->
  while_loop fuel cond body s w = Some (Ok (Condition_false, s), w).
Proof. intros Hc. destruct fuel; simpl; now rewrite Hc. Qed.

End MoreLoopFacts.

Section MoreTestStatisticFacts.

Context {num : Type} `{Number num} {G : Type}.
Variable rvs : list num -> Z -> G -> result (list num) * G.
Variable ks_2samp : list num -> list num -> num * num.
Variable np_mean : list num -> num.
Variable np_std : list num -> num.
Variables num_observations ndays : Z.
Variables significance_level discrepancy : num.

Local Open Scope monad_scope.

Local Notation "'returns'" :=
  (Returns_init num_observations ndays default_levy_parameters).
Local Notation "'body'" := (ts_body rvs ks_2samp returns).
Local Notation "'cond'" := (ts_cond significance_level discrepancy).
Local Notation "'draw'" := (get_percentile rvs returns default_q_value).

(** The two draws of one pass through the body. *)
Lemma ts_body_draws s w c s' w' :
  body s w = Some (Ok (c, s'), w') ->
  exists x1 w1 x2 w2,
    draw w = Some (Ok x1, w1)
    /\ draw w1 = Some (Ok x2, w2)
    /\ rng w' = rng w2
    /\ ts_p_list1 s' = append (ts_p_list1 s) x1
    /\ ts_p_list2 s' = append (ts_p_list2 s) x2.
Proof.
  unfold ts_body. intros Hrun.
  apply bind_inv in Hrun as [(x1 & w1 & Hg1 & Hrun)|(e & _ & Habs)];
    [|discriminate].
  apply bind_inv in Hrun as [(x2 & w2 & Hg2 & Hrun)|(e & _ & Habs)];
    [|discriminate].
  exists x1, w1, x2, w2. split; [exact Hg1|]. split; [exact Hg2|].
  destruct ((ts_trials s + 1) mod 100 =? 0);
    destruct (ts_trials s + 1 >? 200000);
    unfold bind, emit, ret in Hrun; simpl in Hrun;
    inversion Hrun; subst; auto.
Qed.

(** A draw looks at the generator only. *)
Lemma draw_frame w x w1 (l : list (event num)) :
  draw w = Some (Ok x, w1) ->
  draw (World (rng w) l) = Some (Ok x, World (rng w1) l).
Proof.
  rewrite !get_percentile_run. simpl. intros Hrun.
  inversion Hrun as [[Hr Hw]]. now rewrite Hr.
Qed.

Lemma simulate_two w x1 w1 x2 w2 :
  draw w = Some (Ok x1, w1) -> draw w1 = Some (Ok x2, w2) ->
  simulate_monte_carlo rvs num_observations ndays 2 w
  = Some (Ok [x1; x2], w2).
Proof.
  intros H1 H2. unfold simulate_monte_carlo.
  change (py_range 2) with [0; 1]. simpl.
  rewrite (bind_ok _ _ _ _ _ (bind_ok _ _ _ _ _ H1)).
  unfold ret at 1. simpl.
  rewrite (bind_ok _ _ _ _ _ (bind_ok _ _ _ _ _ H2)).
  reflexivity.
Qed.

(** *** The trial count *)

Lemma ts_loop_trials w e s w' :
  ts_loop rvs ks_2samp returns significance_level discrepancy w
    = Some (Ok (e, s), w') ->
  0 <= ts_trials s <= 200001
  /\ (ts_trials s <= 200000 -> ts_trials s mod 100 = 0)
  /\ (ts_trials s = 0 <-> cond ts_initial = false).
Proof.
  intros Hrun.
  assert (Hmain :
    0 <= ts_trials s <= 200001
    /\ (ts_trials s <= 200000 -> ts_trials s mod 100 = 0)
    /\ (ts_trials s = 0 -> cond ts_initial = false)).
  { unfold ts_loop in Hrun. revert Hrun.
    generalize (Z.to_nat 200001). intros fuel Hrun.
    apply (while_loop_rule cond body
             (fun s _ =>
                0 <= ts_trials s <= 200000
                /\ (cond s = false -> ts_trials s mod 100 = 0)
                /\ (ts_trials s = 0 -> cond s = cond ts_initial))
             (fun _ s _ =>
                0 <= ts_trials s <= 200001
                /\ (ts_trials s <= 200000 -> ts_trials s mod 100 = 0)
                /\ (ts_trials s = 0 -> cond ts_initial = false))
             (fun _ _ => True)) in Hrun; auto.
    - intros s0 _ (Ht & Hm & H0) Hc. repeat split; try lia; auto.
      intros Hz. rewrite <- (H0 Hz). exact Hc.
    - intros s0 w0 r w0' (Ht & Hm & H0) Hc Hb. apply ts_body_inv in Hb.
      destruct r as [[c s1]|e0]; [|exact I].
      destruct Hb as (x1 & x2 & Ht1 & _ & _ & Hsp & Hctl & _).
      destruct (ts_trials s0 + 1 >? 200000) eqn:Hcap; subst c.
      + apply Z.gtb_lt in Hcap. repeat split; lia.
      + rewrite Z.gtb_ltb in Hcap. apply Z.ltb_ge in Hcap.
        repeat split; try lia.
        intros Hc1. rewrite Ht1.
        destruct ((ts_trials s0 + 1) mod 100 =? 0) eqn:Hmod;
          [now apply Z.eqb_eq in Hmod|].
        exfalso. unfold ts_cond in *. inversion Hsp. congruence.
    - simpl. repeat split; lia. }
  destruct Hmain as (Ht & Hm & H0). repeat split; auto; try lia.
  intros Hc. unfold ts_loop in Hrun.
  rewrite while_loop_exit_now in Hrun by exact Hc.
  inversion Hrun. reflexivity.
Qed.

(** *** The progress lines *)

Lemma ts_loop_lines w e s w' :
  ts_loop rvs ks_2samp returns significance_level discrepancy w
    = Some (Ok (e, s), w') ->
  exists lines,
    log w' = log w ++ lines
             ++ (if ts_trials s >? 200000 then [Print_failed] else [])
    /\ map statistic_line_trials lines
       = hundreds (Z.to_nat (ts_trials s / 100)).
Proof.
  unfold ts_loop. generalize (Z.to_nat 200001). intros fuel Hrun.
  apply (while_loop_rule cond body
           (fun s w1 =>
              0 <= ts_trials s <= 200000
              /\ exists lines,
                  log w1 = log w ++ lines
                  /\ map statistic_line_trials lines
                     = hundreds (Z.to_nat (ts_trials s / 100)))
           (fun _ s w1 =>
              exists lines,
                log w1 = log w ++ lines
                  ++ (if ts_trials s >? 200000 then [Print_failed] else [])
                /\ map statistic_line_trials lines
                   = hundreds (Z.to_nat (ts_trials s / 100)))
           (fun _ _ => True)) in Hrun; auto.
  - intros s0 w0 (Ht & lines & Hlog & Hl) _. exists lines.
    destruct (ts_trials s0 >? 200000) eqn:Hcap;
      [apply Z.gtb_lt in Hcap; lia|].
    rewrite app_nil_r. split; assumption.
  - intros s0 w0 r w0' (Ht & lines & Hlog & Hl) _ Hb.
    apply ts_body_inv in Hb. destruct r as [[c s1]|e0]; [|exact I].
    destruct Hb as (x1 & x2 & Ht1 & _ & _ & _ & Hctl & Hlog').
    rewrite Ht1. rewrite Hlog in Hlog'.
    destruct ((ts_trials s0 + 1) mod 100 =? 0) eqn:Hmod.
    + apply Z.eqb_eq in Hmod.
      assert (Hcap : (ts_trials s0 + 1 >? 200000) = false).
      { rewrite Z.gtb_ltb. apply Z.ltb_ge.
        Z.to_euclidean_division_equations; lia. }
      rewrite Hcap in *. subst c. rewrite app_nil_r in Hlog'.
      split; [rewrite Z.gtb_ltb in Hcap; apply Z.ltb_ge in Hcap; lia|].
      eexists. split; [rewrite Hlog', <- app_assoc; reflexivity|].
      rewrite map_app, Hl. simpl. now rewrite hundreds_next by lia.
    + apply Z.eqb_neq in Hmod. simpl in Hlog'.
      destruct (ts_trials s0 + 1 >? 200000) eqn:Hcap; subst c.
      * exists lines. split; [now rewrite Hlog', <- app_assoc|].
        now rewrite hundreds_same by lia.
      * rewrite app_nil_r in Hlog'.
        split; [rewrite Z.gtb_ltb in Hcap; apply Z.ltb_ge in Hcap; lia|].
        exists lines. split; [exact Hlog'|].
        now rewrite hundreds_same by lia.
  - simpl. split; [lia|]. exists []. now rewrite app_nil_r.
Qed.

(** *** The two samples and the stream of draws *)

Lemma ts_loop_interleaves w e s w' :
  ts_loop rvs ks_2samp returns significance_level discrepancy w
    = Some (Ok (e, s), w') ->
  length (ts_p_list1 s) = length (ts_p_list2 s)
  /\ simulate_monte_carlo rvs num_observations ndays (2 * ts_trials s) w
     = Some (Ok (interleave (ts_p_list1 s) (ts_p_list2 s)),
             World (rng w') (log w)).
Proof.
  unfold ts_loop. generalize (Z.to_nat 200001). intros fuel Hrun.
  set (P := fun (s : @ts_state num) (w1 : world G num) =>
              0 <= ts_trials s
              /\ length (ts_p_list1 s) = length (ts_p_list2 s)
              /\ simulate_monte_carlo rvs num_observations ndays
                   (2 * ts_trials s) w
                 = Some (Ok (interleave (ts_p_list1 s) (ts_p_list2 s)),
                         World (rng w1) (log w))).
  assert (Hstep : forall s0 w0 c s1 w1,
             P s0 w0 -> body s0 w0 = Some (Ok (c, s1), w1) -> P s1 w1).
  { intros s0 w0 c s1 w1 (Ht & Hlen & Hsim) Hb.
    pose proof (ts_body_draws _ _ _ _ _ Hb)
      as (x1 & wa & x2 & wb & Hd1 & Hd2 & Hrng & Hl1 & Hl2).
    apply ts_body_inv in Hb. destruct Hb as (_ & _ & Ht1 & _).
    unfold P. rewrite Ht1, Hl1, Hl2. unfold append.
    split; [lia|]. split; [rewrite !length_app; simpl; lia|].
    replace (2 * (ts_trials s0 + 1)) with (2 * ts_trials s0 + 2) by lia.
    rewrite simulate_split by lia.
    rewrite (bind_ok _ _ _ _ _ Hsim).
    apply (draw_frame _ _ _ (log w)) in Hd1, Hd2.
    rewrite (bind_ok _ _ _ _ _ (simulate_two _ _ _ _ _ Hd1 Hd2)).
    unfold ret. rewrite interleave_snoc by exact Hlen.
    now rewrite Hrng. }
  apply (while_loop_rule cond body P (fun _ s w1 => P s w1)
           (fun _ _ => True)) in Hrun.
  - destruct Hrun as (_ & Hlen & Hsim). split; assumption.
  - auto.
  - intros s0 w0 r w0' HP _ Hb. destruct r as [[[|] s1]|e0]; [| |exact I];
      exact (Hstep _ _ _ _ _ HP Hb).
  - unfold P. simpl. split; [lia|]. split; [reflexivity|].
    unfold simulate_monte_carlo. simpl. unfold ret. now destruct w.
Qed.

End MoreTestStatisticFacts.

(* ================================================================== *)
(** ** Further properties of [check_monte_carlo_trials] *)

Section MoreCheckFacts.

Context {num : Type} `{Number num} {G : Type}.
Variable rvs : list num -> Z -> G -> result (list num) * G.
Variable ks_2samp : list num -> list num -> num * num.
Variable np_mean : list num -> num.
Variable np_std : list num -> num.
Variables num_observations ndays : Z.

Local Open Scope monad_scope.

Local Notation "'returns'" :=
  (Returns_init num_observations ndays default_levy_parameters).
Local Notation "'draw'" := (get_percentile rvs returns default_q_value).
Local Notation "'simulate'" :=
  (simulate_monte_carlo rvs num_observations ndays).

Lemma world_eta (w : world G num) : World (rng w) (log w) = w.
Proof. now destruct w. Qed.

Lemma simulate_zero w : simulate 0 w = Some (Ok [], w).
Proof. reflexivity. Qed.

Lemma simulate_one w x w1 :
  draw w = Some (Ok x, w1) -> simulate 1 w = Some (Ok [x], w1).
Proof.
  intros Hd. unfold simulate_monte_carlo. change (py_range 1) with [0].
  simpl. now rewrite (bind_ok _ _ _ _ _ (bind_ok _ _ _ _ _ Hd)).
Qed.

Lemma simulate_length t w ps w1 :
  simulate t w = Some (Ok ps, w1) ->
  Z.of_nat (length ps) = Z.max 0 t /\ log w1 = log w.
Proof.
  unfold simulate_monte_carlo. intros Hrun.
  apply collect_percentiles in Hrun as [Hlog Hlen]. split; [|exact Hlog].
  rewrite Hlen, length_py_range. simpl. lia.
Qed.

(** *** 'test_statistic' *)

Lemma check_test_statistic_inv significance_level discrepancy w v w' :
  check_monte_carlo_trials rvs ks_2samp np_mean np_std
    "test_statistic" num_observations ndays
    significance_level discrepancy w = Some (Ok v, w') ->
  exists e s,
    ts_loop rvs ks_2samp returns significance_level discrepancy w
      = Some (Ok (e, s), w')
    /\ v = Pair_list_int (ts_p_list1 s ++ ts_p_list2 s) (ts_trials s).
Proof.
  rewrite check_method_test_statistic. unfold check_test_statistic.
  intros Hrun.
  apply bind_inv in Hrun as [([e s] & w1 & Hloop & Hret)|(e & _ & Habs)];
    [|discriminate].
  unfold ret in Hret. inversion Hret; subst. eauto.
Qed.

(** X4.  The trial count the test-statistic procedure returns is at
    most 200001; unless the hard cap was exceeded (200001) it is a
    multiple of 100, the loop being left only right after a two-sample
    test; and it is 0 exactly when the loop condition fails already on
    the initial [statistic = 10e8] and [p_value = 0]. *)
Theorem test_statistic_trial_count significance_level discrepancy
    w percentiles trials w' :
  check_monte_carlo_trials rvs ks_2samp np_mean np_std
    "test_statistic" num_observations ndays
    significance_level discrepancy w
    = Some (Ok (Pair_list_int percentiles trials), w') ->
  0 <= trials <= 200001
  /\ (trials <= 200000 -> trials mod 100 = 0)
  /\ (trials = 0 <->
      ts_cond significance_level discrepancy ts_initial = false).
Proof.
  intros Hrun. apply check_test_statistic_inv in Hrun as (e & s & Hloop & Hv).
  inversion Hv; subst. exact (ts_loop_trials _ _ _ _ _ _ _ _ _ _ Hloop).
Qed.

(** X5.  What the test-statistic procedure prints: one progress line
    per hundred trials, carrying the trial counts 100, 200, ... up to
    the last hundred reached, and after them "Simulation failed!"
    exactly when the hard cap was exceeded. *)
Theorem test_statistic_progress_lines significance_level discrepancy
    w percentiles trials w' :
  check_monte_carlo_trials rvs ks_2samp np_mean np_std
    "test_statistic" num_observations ndays
    significance_level discrepancy w
    = Some (Ok (Pair_list_int percentiles trials), w') ->
  exists lines,
    log w' = log w ++ lines
             ++ (if trials >? 200000 then [Print_failed] else [])
    /\ map statistic_line_trials lines = hundreds (Z.to_nat (trials / 100)).
Proof.
  intros Hrun. apply check_test_statistic_inv in Hrun as (e & s & Hloop & Hv).
  inversion Hv; subst. exact (ts_loop_lines _ _ _ _ _ _ _ _ _ _ Hloop).
Qed.

(** X6.  The two samples of the test-statistic procedure split one
    stream of draws: the percentiles it returns are, first sample and
    second sample taken alternately, the percentiles that
    [simulate_monte_carlo] with [2 * trials] trials returns from the
    same generator state, and both leave the generator in the same
    state. *)
Theorem test_statistic_samples_split_the_stream significance_level
    discrepancy w percentiles trials w' :
  check_monte_carlo_trials rvs ks_2samp np_mean np_std
    "test_statistic" num_observations ndays
    significance_level discrepancy w
    = Some (Ok (Pair_list_int percentiles trials), w') ->
  exists p_list1 p_list2,
    percentiles = p_list1 ++ p_list2
    /\ length p_list1 = length p_list2
    /\ simulate (2 * trials) w
       = Some (Ok (interleave p_list1 p_list2), World (rng w') (log w)).
Proof.
  intros Hrun. apply check_test_statistic_inv in Hrun as (e & s & Hloop & Hv).
  inversion Hv; subst.
  pose proof (ts_loop_interleaves _ _ _ _ _ _ _ _ _ _ Hloop) as [Hlen Hsim].
  exists (ts_p_list1 s), (ts_p_list2 s). auto.
Qed.

(** *** 'CLT' *)

Lemma clt_loop_samples (fuel : nat) w e s w' :
  while_loop fuel
    (fun s => clt_samples s <? clt_MAX_SAMPLES)
    (clt_body rvs np_mean np_std returns)
    {| clt_std := []; clt_mean := []; clt_samples := 0 |} w
    = Some (Ok (e, s), w') ->
  exists samples,
    clt_mean s = map np_mean samples
    /\ Z.of_nat (length samples) = clt_MAX_SAMPLES
    /\ Forall (fun ps => Z.of_nat (length ps) = clt_MAX_TRIALS) samples
    /\ simulate (clt_MAX_SAMPLES * clt_MAX_TRIALS) w
       = Some (Ok (concat samples), w').
Proof.
  intros Hrun.
  set (P := fun (s : @clt_state num) (w1 : world G num) =>
              0 <= clt_samples s <= clt_MAX_SAMPLES
              /\ exists samples,
                  clt_mean s = map np_mean samples
                  /\ Z.of_nat (length samples) = clt_samples s
                  /\ Forall (fun ps => Z.of_nat (length ps) = clt_MAX_TRIALS)
                            samples
                  /\ simulate (clt_samples s * clt_MAX_TRIALS) w
                     = Some (Ok (concat samples), w1)).
  apply (while_loop_rule _ _ P
           (fun _ s w1 => P s w1 /\ clt_samples s = clt_MAX_SAMPLES)
           (fun _ _ => True)) in Hrun.
  - destruct Hrun as [(_ & samples & Hm & Hl & Hf & Hsim) Hs].
    exists samples. rewrite Hs in *. auto.
  - intros s0 w0 HP Hc. split; [exact HP|].
    destruct HP as (Hs & _). apply Z.ltb_ge in Hc. lia.
  - intros s0 w0 r w0' (Hs & samples & Hm & Hl & Hf & Hsim) Hc Hb.
    apply Z.ltb_lt in Hc. unfold clt_body in Hb.
    apply bind_inv in Hb as [(ps & w1 & Hps & Hret)|(e0 & _ & ->)];
      [|exact I].
    change (simulate clt_MAX_TRIALS w0 = Some (Ok ps, w1)) in Hps.
    pose proof (simulate_length _ _ _ _ Hps) as [Hlen _].
    unfold ret in Hret. inversion Hret; subst; clear Hret.
    unfold P. simpl. split; [lia|]. exists (samples ++ [ps]).
    unfold append. rewrite map_app, length_app, Hm. simpl.
    split; [reflexivity|]. split; [lia|]. split.
    + apply Forall_app. split; [exact Hf|]. constructor; [|constructor].
      rewrite Hlen. unfold clt_MAX_TRIALS. lia.
    + replace ((clt_samples s0 + 1) * clt_MAX_TRIALS)
        with (clt_samples s0 * clt_MAX_TRIALS + clt_MAX_TRIALS) by lia.
      rewrite simulate_split
        by (unfold clt_MAX_TRIALS; lia).
      rewrite (bind_ok _ _ _ _ _ Hsim), (bind_ok _ _ _ _ _ Hps).
      unfold ret. now rewrite concat_app, (app_nil_r ps : concat [ps] = ps).
  - unfold P. simpl. split; [unfold clt_MAX_SAMPLES; lia|].
    exists []. repeat split; auto.
Qed.

(** X7.  The 'CLT' method returns [(mean, 15000)] where [mean] holds
    the [np.mean] of 100 consecutive blocks of 15000 percentiles: the
    blocks, one after the other, are the percentiles that
    [simulate_monte_carlo] with 100 * 15000 trials returns from the same
    generator state, and the generator ends in the same state. *)
Theorem clt_means_of_consecutive_samples significance_level discrepancy
    w v w' :
  check_monte_carlo_trials rvs ks_2samp np_mean np_std
    "CLT" num_observations ndays significance_level discrepancy w
    = Some (Ok v, w') ->
  exists samples,
    v = Pair_list_int (map np_mean samples) clt_MAX_TRIALS
    /\ Z.of_nat (length samples) = clt_MAX_SAMPLES
    /\ Forall (fun ps => Z.of_nat (length ps) = clt_MAX_TRIALS) samples
    /\ simulate (clt_MAX_SAMPLES * clt_MAX_TRIALS) w
       = Some (Ok (concat samples), World (rng w') (log w)).
Proof.
  rewrite check_method_clt. unfold check_clt. intros Hrun.
  apply bind_inv in Hrun as [([e s] & w1 & Hloop & Hrest)|(e & _ & Habs)];
    [|discriminate].
  pose proof (clt_loop_samples _ _ _ _ _ Hloop)
    as (samples & Hm & Hl & Hf & Hsim).
  pose proof (simulate_length _ _ _ _ Hsim) as [_ Hlog].
  unfold bind, emit, ret in Hrest. simpl in Hrest.
  inversion Hrest; subst; clear Hrest. simpl.
  exists samples. rewrite Hm, <- Hlog, world_eta. auto.
Qed.

(** *** 'monitoring' *)

(** The running means of a list of percentiles. *)
Lemma running_means_snoc (ps : list num) (x : num) :
  map (fun k => np_mean (firstn k (ps ++ [x]))) (seq 1 (S (length ps)))
  = map (fun k => np_mean (firstn k ps)) (seq 1 (length ps))
    ++ [np_mean (ps ++ [x])].
Proof.
  rewrite seq_S, map_app. f_equal.
  - apply map_ext_in. intros k Hk. apply in_seq in Hk.
    rewrite firstn_app. replace (k - length ps)%nat with 0%nat by lia.
    simpl. now rewrite app_nil_r.
  - cbn [map]. rewrite firstn_all2; [reflexivity|].
    rewrite length_app. simpl. lia.
Qed.

Lemma monitoring_loop_trace (fuel : nat) w e s w' :
  while_loop fuel
    (fun s => mon_trial s <? monitoring_MAX_TRIALS)
    (monitoring_body rvs np_mean returns)
    {| mon_mean_perc := []; mon_percentiles := [];
       mon_trial := 0; mon_trials := [] |} w
    = Some (Ok (e, s), w') ->
  exists percentiles,
    length percentiles = Z.to_nat monitoring_MAX_TRIALS
    /\ simulate monitoring_MAX_TRIALS w = Some (Ok percentiles, w')
    /\ mon_mean_perc s
       = map (fun k => np_mean (firstn k percentiles))
             (seq 1 (length percentiles))
    /\ mon_trials s = map Z.of_nat (seq 1 (length percentiles)).
Proof.
  intros Hrun.
  set (P := fun (s : @monitoring_state num) (w1 : world G num) =>
              0 <= mon_trial s <= monitoring_MAX_TRIALS
              /\ Z.of_nat (length (mon_percentiles s)) = mon_trial s
              /\ simulate (mon_trial s) w
                 = Some (Ok (mon_percentiles s), w1)
              /\ mon_mean_perc s
                 = map (fun k => np_mean (firstn k (mon_percentiles s)))
                       (seq 1 (length (mon_percentiles s)))
              /\ mon_trials s
                 = map Z.of_nat (seq 1 (length (mon_percentiles s)))).
  apply (while_loop_rule _ _ P
           (fun _ s w1 => P s w1 /\ mon_trial s = monitoring_MAX_TRIALS)
           (fun _ _ => True)) in Hrun.
  - destruct Hrun as [(_ & Hl & Hsim & Hm & Ht) Hs].
    exists (mon_percentiles s). rewrite Hs in *.
    repeat split; auto. lia.
  - intros s0 w0 HP Hc. split; [exact HP|].
    destruct HP as (Hs & _). apply Z.ltb_ge in Hc. lia.
  - intros s0 w0 r w0' (Hs & Hl & Hsim & Hm & Ht) Hc Hb.
    apply Z.ltb_lt in Hc. unfold monitoring_body in Hb.
    apply bind_inv in Hb as [(x & w1 & Hd & Hret)|(e0 & _ & ->)];
      [|exact I].
    unfold ret in Hret. inversion Hret; subst; clear Hret.
    unfold P. simpl. unfold append. rewrite length_app. simpl.
    replace (length (mon_percentiles s0) + 1)%nat
      with (S (length (mon_percentiles s0))) by lia.
    split; [lia|]. split; [lia|]. split; [|split].
    + rewrite simulate_split by lia.
      rewrite (bind_ok _ _ _ _ _ Hsim).
      now rewrite (bind_ok _ _ _ _ _ (simulate_one _ _ _ Hd)).
    + now rewrite running_means_snoc, Hm.
    + rewrite seq_S, map_app, <- Ht. simpl. do 2 f_equal. lia.
  - unfold P. simpl. unfold monitoring_MAX_TRIALS.
    repeat split; auto; lia.
Qed.

(** X8.  The 'monitoring' method returns the trace of running means:
    with [percentiles] the 30000 percentiles that
    [simulate_monte_carlo] returns from the same generator state, entry
    [k] of the first list is the [np.mean] of the first [k] percentiles
    and the second list is [1, 2, ..., 30000]. *)
Theorem monitoring_returns_the_running_means significance_level
    discrepancy w v w' :
  check_monte_carlo_trials rvs ks_2samp np_mean np_std
    "monitoring" num_observations ndays significance_level discrepancy w
    = Some (Ok v, w') ->
  exists percentiles,
    length percentiles = Z.to_nat monitoring_MAX_TRIALS
    /\ simulate monitoring_MAX_TRIALS w
       = Some (Ok percentiles, World (rng w') (log w))
    /\ v = Pair_list_list
             (map (fun k => np_mean (firstn k percentiles))
                  (seq 1 (length percentiles)))
             (map Z.of_nat (seq 1 (length percentiles))).
Proof.
  unfold check_monte_carlo_trials.
  change (String.eqb "monitoring" "CLT") with false.
  change (String.eqb "monitoring" "monitoring") with true. cbv iota.
  unfold check_monitoring. intros Hrun.
  apply bind_inv in Hrun as [([e s] & w1 & Hloop & Hrest)|(e & _ & Habs)];
    [|discriminate].
  pose proof (monitoring_loop_trace _ _ _ _ _ Hloop)
    as (percentiles & Hlen & Hsim & Hm & Ht).
  pose proof (simulate_length _ _ _ _ Hsim) as [_ Hlog].
  unfold bind, emit, ret in Hrest. simpl in Hrest.
  inversion Hrest; subst; clear Hrest. simpl.
  exists percentiles. rewrite Hm, Ht, <- Hlog, world_eta. auto.
Qed.

(** *** Every method *)

(** X9.  The procedure terminates for every method, configuration and
    generator: each call returns a value or raises; the adaptive loop
    cannot run forever. *)
Theorem check_monte_carlo_trials_terminates method significance_level
    discrepancy w :
  exists r w',
    check_monte_carlo_trials rvs ks_2samp np_mean np_std
      method num_observations ndays significance_level discrepancy w
    = Some (r, w').
Proof.
  pose proof (check_monte_carlo_trials_returns rvs ks_2samp np_mean np_std
                method num_observations ndays significance_level
                discrepancy w) as Hret.
  destruct (check_monte_carlo_trials rvs ks_2samp np_mean np_std
              method num_observations ndays significance_level
              discrepancy w) as [[r w']|]; [eauto|contradiction].
Qed.

(** X10.  The procedure raises nothing of its own: an exception that
    leaves it is the exception of one of its calls of [get_percentile]
    (of the draw or of [np.percentile]), passed on unchanged, and
    nothing was handed to pyplot before it. *)
Theorem check_monte_carlo_trials_passes_on_draw_errors method
    significance_level discrepancy w e w' :
  check_monte_carlo_trials rvs ks_2samp np_mean np_std
    method num_observations ndays significance_level discrepancy w
    = Some (Raise e, w') ->
  (exists w1, draw w1 = Some (Raise e, w'))
  /\ log_grows is_print w w'.
Proof.
  unfold check_monte_carlo_trials. intros Hrun.
  destruct (String.eqb method "CLT").
  { apply check_clt_outcomes in Hrun as [Hlog Hex].
    split; [exact Hex|now apply log_grows_same]. }
  destruct (String.eqb method "monitoring").
  { apply check_monitoring_outcomes in Hrun as [Hlog Hex].
    split; [exact Hex|now apply log_grows_same]. }
  destruct (String.eqb method "test_statistic"); [|discriminate].
  unfold check_test_statistic in Hrun.
  apply bind_inv in Hrun as [(r & w1 & _ & Hret)|(e' & Hloop & Heq)];
    [discriminate|].
  inversion Heq; subst e'.
  apply ts_loop_outcomes in Hloop as [Hg Hex]. auto.
Qed.

(** *** The script *)

(** X11.  The script never fails at unpacking the result; an exception
    that ends it is one raised by [check_monte_carlo_trials]; and when
    it finishes it has drawn exactly one figure, after all progress
    lines: the histogram, with bins 'fd' and title 'Percentile
    distribution', of the [2 * trials] percentiles returned. *)
Theorem main_outcomes w o w' :
  main rvs ks_2samp np_mean np_std w = Some (o, w') ->
  match o with
  | Finished =>
      exists percentiles trials w1,
        check_monte_carlo_trials rvs ks_2samp np_mean np_std
          "test_statistic" 750 10
          default_significance_level default_discrepancy w
        = Some (Ok (Pair_list_int percentiles trials), w1)
        /\ Z.of_nat (length percentiles) = 2 * trials
        /\ rng w' = rng w1
        /\ log w' = log w1 ++ distribution_figure percentiles
                                (Bins_rule "fd") "Percentile distribution"
        /\ forallb is_print (skipn (length (log w)) (log w1)) = true
  | Uncaught e =>
      check_monte_carlo_trials rvs ks_2samp np_mean np_std
        "test_statistic" 750 10
        default_significance_level default_discrepancy w
      = Some (Raise e, w')
  | Unpack_TypeError => False
  end.
Proof.
  unfold main.
  destruct (check_monte_carlo_trials rvs ks_2samp np_mean np_std
              "test_statistic" 750 10 default_significance_level
              default_discrepancy w) as [[[v|e] w1]|] eqn:Hrun;
    [|intros Hm; inversion Hm; subst; reflexivity|discriminate].
  pose proof Hrun as Hinv. rewrite check_method_test_statistic in Hinv.
  unfold check_test_statistic in Hinv.
  apply bind_inv in Hinv as [([e s] & w2 & Hloop & Hret)|(e & _ & Habs)];
    [|discriminate].
  unfold ret in Hret. inversion Hret; subst; clear Hret.
  apply ts_loop_outcomes in Hloop as (H1 & H2 & (new & Hlog & Hnew) & _).
  assert (Hlen : Z.of_nat (length (ts_p_list1 s ++ ts_p_list2 s))
                 = 2 * ts_trials s) by (rewrite length_app; lia).
  unfold visualize_distribution, bind, emit, append. simpl.
  intros Hm. inversion Hm; subst; clear Hm. simpl.
  exists (ts_p_list1 s ++ ts_p_list2 s), (ts_trials s), w1.
  split; [reflexivity|]. split; [exact Hlen|].
  split; [reflexivity|]. split; [now rewrite <- !app_assoc|].
  rewrite Hlog, skipn_app, skipn_all, Nat.sub_diag. exact Hnew.
Qed.

(** When the procedure returns, the script runs to its end. *)
Lemma main_finishes_after w v w1 :
  check_monte_carlo_trials rvs ks_2samp np_mean np_std
    "test_statistic" 750 10
    default_significance_level default_discrepancy w
    = Some (Ok v, w1) ->
  exists w', main rvs ks_2samp np_mean np_std w = Some (Finished, w').
Proof.
  intros Hrun. pose proof Hrun as Hinv.
  rewrite check_method_test_statistic in Hinv.
  unfold check_test_statistic in Hinv.
  apply bind_inv in Hinv as [([e s] & w2 & _ & Hret)|(e & _ & Habs)];
    [|discriminate].
  unfold ret in Hret. inversion Hret; subst; clear Hret.
  unfold main. rewrite Hrun. eexists. reflexivity.
Qed.

End MoreCheckFacts.

(* ================================================================== *)
(** ** The further properties on concrete runs *)

Module ExtraRuns.

Import Fixture FixtureFacts.
Local Open Scope Q_scope.

(** A run of X1: the window of two days at position 1 of [0, 100, 200]. *)
Lemma compound_window_run :
  nth_error (compound 2 [0; 100; 200]) 1
  = Some (sub (np_prod (map (fun x => add x one)
                            (firstn 2 (skipn 1 [0; 100; 200]))))
              one).
Proof.
  apply (compound_window 2 [0; 100; 200] 1); simpl; lia.
Defined.

(** A run of X3: two trials and then three. *)
Lemma simulate_monte_carlo_split_run :
  simulate_monte_carlo rvs 1 1 (2 + 3) w0
  = bind (simulate_monte_carlo rvs 1 1 2)
      (fun p1 =>
         bind (simulate_monte_carlo rvs 1 1 3)
           (fun p2 => ret (p1 ++ p2))) w0.
Proof.
  apply (simulate_monte_carlo_split rvs 1 1 2 3 w0); lia.
Defined.

(** A run of X4: the converging run, left at trial 100. *)
Lemma test_statistic_trial_count_run :
  exists percentiles w',
    check_monte_carlo_trials rvs ks_agree np_mean np_std
      "test_statistic" 1 1 default_significance_level
      default_discrepancy w0
    = Some (Ok (Pair_list_int percentiles 100), w')
    /\ (0 <= 100 <= 200001)%Z
    /\ ((100 <= 200000)%Z -> (100 mod 100 = 0)%Z)
    /\ (100%Z = 0%Z <->
        ts_cond default_significance_level default_discrepancy
          (ts_initial (num:=Q)) = false).
Proof.
  eexists. eexists.
  assert (Hrun :
    check_monte_carlo_trials rvs ks_agree np_mean np_std
      "test_statistic" 1 1 default_significance_level
      default_discrepancy w0
    = Some (Ok (Pair_list_int _ 100), _)) by (vm_compute; reflexivity).
  split; [exact Hrun|].
  exact (test_statistic_trial_count rvs ks_agree np_mean np_std 1 1
           default_significance_level default_discrepancy
           w0 _ 100%Z _ Hrun).
Defined.

(** A run of X5: the converging run prints one line, at trial 100. *)
Lemma test_statistic_progress_lines_run :
  exists percentiles w',
    check_monte_carlo_trials rvs ks_agree np_mean np_std
      "test_statistic" 1 1 default_significance_level
      default_discrepancy w0
    = Some (Ok (Pair_list_int percentiles 100), w')
    /\ exists lines,
        log w' = log w0 ++ lines
                 ++ (if (100 >? 200000)%Z then [Print_failed] else [])
        /\ map statistic_line_trials lines
           = hundreds (Z.to_nat (100 / 100)).
Proof.
  eexists. eexists.
  assert (Hrun :
    check_monte_carlo_trials rvs ks_agree np_mean np_std
      "test_statistic" 1 1 default_significance_level
      default_discrepancy w0
    = Some (Ok (Pair_list_int _ 100), _)) by (vm_compute; reflexivity).
  split; [exact Hrun|].
  exact (test_statistic_progress_lines rvs ks_agree np_mean np_std 1 1
           default_significance_level default_discrepancy
           w0 _ 100%Z _ Hrun).
Defined.

(** A run of X6: the converging run against 200 trials of the plain
    simulation. *)
Lemma test_statistic_samples_split_the_stream_run :
  exists percentiles w',
    check_monte_carlo_trials rvs ks_agree np_mean np_std
      "test_statistic" 1 1 default_significance_level
      default_discrepancy w0
    = Some (Ok (Pair_list_int percentiles 100), w')
    /\ exists p_list1 p_list2,
        percentiles = p_list1 ++ p_list2
        /\ length p_list1 = length p_list2
        /\ simulate_monte_carlo rvs 1 1 (2 * 100) w0
           = Some (Ok (interleave p_list1 p_list2),
                   World (rng w') (log w0)).
Proof.
  eexists. eexists.
  assert (Hrun :
    check_monte_carlo_trials rvs ks_agree np_mean np_std
      "test_statistic" 1 1 default_significance_level
      default_discrepancy w0
    = Some (Ok (Pair_list_int _ 100), _)) by (vm_compute; reflexivity).
  split; [exact Hrun|].
  exact (test_statistic_samples_split_the_stream rvs ks_agree np_mean
           np_std 1 1 default_significance_level default_discrepancy
           w0 _ 100%Z _ Hrun).
Defined.

(** A run of X7: the 'CLT' method on the fixture. *)
Lemma clt_means_of_consecutive_samples_run :
  exists v w',
    check_monte_carlo_trials rvs ks_agree np_mean np_std
      "CLT" 1 1 default_significance_level default_discrepancy w0
    = Some (Ok v, w')
    /\ exists samples,
        v = Pair_list_int (map np_mean samples) clt_MAX_TRIALS
        /\ Z.of_nat (length samples) = clt_MAX_SAMPLES
        /\ Forall (fun ps => Z.of_nat (length ps) = clt_MAX_TRIALS) samples
        /\ simulate_monte_carlo rvs 1 1 (clt_MAX_SAMPLES * clt_MAX_TRIALS) w0
           = Some (Ok (concat samples), World (rng w') (log w0)).
Proof.
  destruct (check_monte_carlo_trials_succeeds rvs ks_agree np_mean np_std
              "CLT" 1 1 default_significance_level default_discrepancy w0
              draws_never_fail) as (v & w' & Hrun).
  exists v, w'. split; [exact Hrun|].
  exact (clt_means_of_consecutive_samples rvs ks_agree np_mean np_std 1 1
           default_significance_level default_discrepancy w0 v w' Hrun).
Defined.

(** A run of X8: the 'monitoring' method on the fixture. *)
Lemma monitoring_returns_the_running_means_run :
  exists v w',
    check_monte_carlo_trials rvs ks_agree np_mean np_std
      "monitoring" 1 1 default_significance_level default_discrepancy w0
    = Some (Ok v, w')
    /\ exists percentiles,
        length percentiles = Z.to_nat monitoring_MAX_TRIALS
        /\ simulate_monte_carlo rvs 1 1 monitoring_MAX_TRIALS w0
           = Some (Ok percentiles, World (rng w') (log w0))
        /\ v = Pair_list_list
                 (map (fun k => np_mean (firstn k percentiles))
                      (seq 1 (length percentiles)))
                 (map Z.of_nat (seq 1 (length percentiles))).
Proof.
  destruct (check_monte_carlo_trials_succeeds rvs ks_agree np_mean np_std
              "monitoring" 1 1 default_significance_level
              default_discrepancy w0 draws_never_fail) as (v & w' & Hrun).
  exists v, w'. split; [exact Hrun|].
  exact (monitoring_returns_the_running_means rvs ks_agree np_mean np_std
           1 1 default_significance_level default_discrepancy w0 v w' Hrun).
Defined.

(** A run of X10: a window of two days on one observation; the first
    draw raises. *)
Lemma check_monte_carlo_trials_passes_on_draw_errors_run :
  exists e w',
    check_monte_carlo_trials rvs ks_agree np_mean np_std
      "test_statistic" 1 2 default_significance_level
      default_discrepancy w0
    = Some (Raise e, w')
    /\ (exists w1,
          get_percentile rvs (Returns_init 1 2 default_levy_parameters)
            default_q_value w1 = Some (Raise e, w'))
    /\ log_grows is_print w0 w'.
Proof.
  eexists. eexists.
  assert (Hrun :
    check_monte_carlo_trials rvs ks_agree np_mean np_std
      "test_statistic" 1 2 default_significance_level
      default_discrepancy w0
    = Some (Raise _, _)) by (vm_compute; reflexivity).
  split; [exact Hrun|].
  exact (check_monte_carlo_trials_passes_on_draw_errors rvs ks_agree
           np_mean np_std 1 2 "test_statistic"
           default_significance_level default_discrepancy w0 _ _ Hrun).
Defined.

(** The script runs to its end on the fixture. *)
Lemma main_finishes :
  exists w', main rvs ks_agree np_mean np_std w0 = Some (Finished, w').
Proof.
  destruct (check_monte_carlo_trials_succeeds rvs ks_agree np_mean np_std
              "test_statistic" 750 10 default_significance_level
              default_discrepancy w0)
    as (v & w1 & Hrun).
  { intros w. apply draws_succeed. lia. }
  exact (main_finishes_after rvs ks_agree np_mean np_std w0 v w1 Hrun).
Qed.

(** A run of X11: the script on the fixture. *)
Lemma main_outcomes_run :
  exists w',
    main rvs ks_agree np_mean np_std w0 = Some (Finished, w')
    /\ exists percentiles trials w1,
        check_monte_carlo_trials rvs ks_agree np_mean np_std
          "test_statistic" 750 10
          default_significance_level default_discrepancy w0
        = Some (Ok (Pair_list_int percentiles trials), w1)
        /\ Z.of_nat (length percentiles) = (2 * trials)%Z
        /\ rng w' = rng w1
        /\ log w' = log w1 ++ distribution_figure percentiles
                                (Bins_rule "fd") "Percentile distribution"
        /\ forallb is_print (skipn (length (log w0)) (log w1)) = true.
Proof.
  destruct main_finishes as (w' & Hrun). exists w'.
  split; [exact Hrun|].
  exact (main_outcomes rvs ks_agree np_mean np_std w0 Finished w' Hrun).
Defined.

End ExtraRuns.
